(** * The user resource and the mongo_search plugin

    A shallow embedding of [girder/api/v1/user.py] (the [User] resource) and
    of [plugins/mongo_search/server/__init__.py] (the [mongoSearch] handler).

    Both files are glue code: a handler receives its declared parameters,
    reads and writes fields of documents (Python dictionaries), and calls
    the models, the mail utility, the event bus and the framework.  The
    embedding follows that shape:

    - documents are dynamically typed values ([value]), dictionaries are
      association lists in insertion order, and the dictionary operations
      raise [KeyError], [TypeError] and [AttributeError] where Python does;
    - a handler is a computation in the monad [M], which threads the log of
      the calls made to the collaborators and may end with an exception;
    - the collaborators (models, framework, clock, mail) are not part of
      these two files: they are the [oracle] of the environment, which
      answers each call from the history of the earlier calls. *)

From Stdlib Require Import String Ascii List ZArith Bool Lia.
Import ListNotations.
Set Warnings "-register-all".
Open Scope string_scope.
Open Scope Z_scope.

(** ** Python values *)

Module Py.

(** The exception classes that the two files name or can provoke.
    [OtherError] stands for any other class; none of the classes below is a
    subclass of another one, all are subclasses of [Exception]. *)
Inductive exn_class : Type :=
| RestException
| AccessException
| ValidationException
| ValueError
| TypeError
| KeyError
| AttributeError
| OtherError (name : string).

(** Documents as the handlers see them.  [VId] is an ObjectId (carrying its
    hexadecimal form, which is what [str] gives), [VTime] a datetime in
    microseconds since the epoch, [VDict] a dictionary with string keys, kept
    in insertion order and with distinct keys. *)
Inductive value : Type :=
| VNone
| VBool (b : bool)
| VInt (z : Z)
| VStr (s : string)
| VId (hex : string)
| VTime (us : Z)
| VList (l : list value)
| VDict (d : list (string * value)).

(** An exception instance: its class and the positional arguments of its
    constructor, as written at the [raise]. *)
Record exn : Type := mkExn { cls : exn_class; args : list value }.

Definition exn_class_eqb (a b : exn_class) : bool :=
  match a, b with
  | RestException, RestException => true
  | AccessException, AccessException => true
  | ValidationException, ValidationException => true
  | ValueError, ValueError => true
  | TypeError, TypeError => true
  | KeyError, KeyError => true
  | AttributeError, AttributeError => true
  | OtherError x, OtherError y => String.eqb x y
  | _, _ => false
  end.

(** [bool(v)], the truth value that [if v], [not v] and [and]/[or] test. *)
Definition truthy (v : value) : bool :=
  match v with
  | VNone => false
  | VBool b => b
  | VInt z => negb (z =? 0)
  | VStr s => negb (String.eqb s EmptyString)
  | VId _ => true
  | VTime _ => true
  | VList l => match l with [] => false | _ => true end
  | VDict d => match d with [] => false | _ => true end
  end.

(** Dictionaries. *)
Fixpoint lookup (k : string) (d : list (string * value)) : option value :=
  match d with
  | [] => None
  | (k', v) :: d' => if String.eqb k k' then Some v else lookup k d'
  end.

Definition has_key (k : string) (d : list (string * value)) : bool :=
  match lookup k d with Some _ => true | None => false end.

(** [d[k] = v]: an existing key keeps its place, a new one goes last. *)
Fixpoint dict_set (k : string) (v : value) (d : list (string * value))
  : list (string * value) :=
  match d with
  | [] => [(k, v)]
  | (k', v') :: d' =>
      if String.eqb k k' then (k, v) :: d' else (k', v') :: dict_set k v d'
  end.

(** [del d[k]] on a dictionary that has the key. *)
Fixpoint dict_del (k : string) (d : list (string * value))
  : list (string * value) :=
  match d with
  | [] => []
  | (k', v') :: d' =>
      if String.eqb k k' then dict_del k d' else (k', v') :: dict_del k d'
  end.

(** [a == b].  [True == 1] and [False == 0] as in Python; dictionaries are
    equal when they have the same keys with equal values, in any order. *)
Fixpoint py_eq (a b : value) {struct a} : bool :=
  match a, b with
  | VNone, VNone => true
  | VBool x, VBool y => Bool.eqb x y
  | VBool x, VInt y => Z.b2z x =? y
  | VInt x, VBool y => x =? Z.b2z y
  | VInt x, VInt y => x =? y
  | VStr x, VStr y => String.eqb x y
  | VId x, VId y => String.eqb x y
  | VTime x, VTime y => x =? y
  | VList l1, VList l2 =>
      (fix go (l1 l2 : list value) {struct l1} : bool :=
         match l1, l2 with
         | [], [] => true
         | x :: xs, y :: ys => py_eq x y && go xs ys
         | _, _ => false
         end) l1 l2
  | VDict d1, VDict d2 =>
      (Nat.eqb (length d1) (length d2)) &&
      (fix go (d : list (string * value)) {struct d} : bool :=
         match d with
         | [] => true
         | (k, v) :: d' =>
             match lookup k d2 with
             | Some v2 => py_eq v v2 && go d'
             | None => false
             end
         end) d1
  | _, _ => false
  end.

(** [a is b] where one side is [None], [True] or [False]: these are
    singletons, so identity is equality of the constant. *)
Definition is_bool (v : value) (b : bool) : bool :=
  match v with VBool b' => Bool.eqb b' b | _ => false end.

Definition is_none (v : value) : bool :=
  match v with VNone => true | _ => false end.

(** Whether a value can be a member of a set or a dictionary key. *)
Definition hashable (v : value) : bool :=
  match v with
  | VList _ | VDict _ => false
  | _ => true
  end.

(** [p in s] on two strings. *)
Fixpoint is_substring (p s : string) : bool :=
  String.prefix p s ||
  match s with
  | EmptyString => false
  | String _ s' => is_substring p s'
  end.

Fixpoint chars (s : string) : list value :=
  match s with
  | EmptyString => []
  | String c s' => VStr (String c EmptyString) :: chars s'
  end.

End Py.
Export Py.

(** ** The collaborators *)

Module Collab.

(** Constants of [girder.constants] and [girder.settings] that the handlers
    pass on; only their identity matters here. *)
Inductive access_type : Type := NONE | READ | WRITE | ADMIN.
Inductive token_scope : Type := TEMPORARY_USER_AUTH | EMAIL_VERIFICATION.
Inductive setting_key : Type :=
  ENABLE_PASSWORD_LOGIN | REGISTRATION_POLICY | BRAND_NAME.
Inductive sort_dir : Type := ASCENDING | DESCENDING.

(** Every call that leaves the two files, with the arguments of the call
    site.  Keyword arguments keep their names.  A document argument is the
    handler's view of the document, with the fields as the handler wrote
    them; what a model writes into a document that it is given
    ([initializeOtp], [setPassword], [addUser]) stays with the model. *)
Inductive outcall : Type :=
(* girder.api.rest: Resource methods and setCurrentUser *)
| getCurrentUser
| getCurrentUser_returnToken
| getCurrentToken
| setCurrentUser (user : value)
| sendAuthTokenCookie (user : value)
| deleteAuthTokenCookie
| requireParams (required : list string) (provided : value)
| getPagingParameters (params : value) (defaultSortField : string)
(* cherrypy.request.headers.get(name) *)
| request_header (name : string)
(* base64.b64decode(s).decode('utf8'), json.loads(s), datetime.utcnow() *)
| b64decode_utf8 (s : string)
| json_loads (s : value)
| utcnow
(* Setting().get(key) *)
| Setting_get (key : setting_key)
(* self._model and UserModel() *)
| User_search (text user offset limit sort : value)
| User_getFullAccessList (user : value)
| User_setAccessList (user access : value) (save : bool)
| User_authenticate (login password : string) (otpToken : value)
| User_filter (doc user : value)
| User_createUser (login password email firstName lastName : string)
    (admin : bool) (currentUser : value)
| User_canLogin (user : value)
| User_findOne (query : value) (sort : list (string * sort_dir))
| User_remove (user : value)
| User_findWithPermissions_count (user : value)
| User_sendApprovedEmail (user : value)
| User_save (user : value)
| User_setPassword (user : value) (password : string)
| User_hasPassword (user : value)
| User_cryptContext_verify (secret : string) (hash : value)
| User_countFolders (user filterUser : value) (level : access_type)
| User_hasOtpEnabled (user : value)
| User_initializeOtp (user : value)
| User_verifyOtp (user otpToken : value)
| User_sendVerificationEmail (user : value)
(* Token() *)
| Token_remove (token : value)
| Token_load (id : string) (user : option value) (level : option access_type)
    (force objectId exc : bool)
| Token_hasScope (token : value) (scope : token_scope)
| Token_createToken (user : value) (days : Z) (scope : token_scope)
(* GroupModel() *)
| Group_findOne (query : value)
| Group_createGroup (name : string) (creator : value) (public : bool)
| Group_addUser (group user : value) (level : access_type)
| Group_getFullAccessList (group : value)
| Group_getFullRequestList (group : value)
(* AppletModel(), CollectionModel(), FolderModel() *)
| Applet_find (query : value)
| Applet_load (id : value) (level : access_type) (user : value)
| Collection_find (query : value)
| Folder_childFolders (parentType : string) (parent user : value)
    (force : bool)
| Folder_find (query : value)
| Folder_load (id : value) (level : access_type) (user : value)
    (force : bool)
(* jsonld_expander and mail_utils *)
| formatLdObject (obj : value) (mesoPrefix : string) (user : value)
    (dropErrors : bool)
| getEmailUrlPrefix
| renderTemplate (name : string) (params : value)
| sendEmail (to : string) (subject : string) (text : value)
(* the event bus and the model importer of mongo_search *)
| events_trigger (name : string) (info : value)
| ModelImporter_model (name : value)
| hasattr (obj : value) (name : string)
| Model_find (model query fields limit offset : value)
| Model_filterResultsByPermission (model cursor user : value)
    (level : access_type) (limit offset : value).

(** A call returns a value or raises. *)
Inductive reply : Type :=
| Returns (v : value)
| Raises (e : exn).

(** What [print] is given: an exception ([print(e)]) or an exception class
    ([print(exc_info()[0])]). *)
Inductive printable : Type :=
| PrintExn (e : exn)
| PrintClass (c : exn_class).

(** The log of a request: the calls with their replies, and the prints, in
    the order in which they happen. *)
Inductive event : Type :=
| Called (c : outcall) (r : reply)
| Printed (p : printable).

(** The environment of a request.  [oracle] stands for all collaborators: it
    answers a call knowing the events so far.  [USER_ROLES] are the keys of
    [girder.constants.USER_ROLES]; [str_lower] is [str.lower]; [repr] gives
    [str(v)] for the values whose text the handlers never inspect. *)
Record env : Type := mkEnv {
  oracle : list event -> outcall -> reply;
  USER_ROLES : list string;
  str_lower : string -> string;
  repr : value -> string
}.

End Collab.
Export Collab.

(** ** The handler monad *)

Module Monad.

Inductive outcome (A : Type) : Type :=
| Ok (a : A)
| Exc (e : exn).
Arguments Ok {A} a.
Arguments Exc {A} e.

(** A computation reads the environment, extends the log, and ends with a
    result or an exception.  An exception keeps the log: what was called
    stays called. *)
Definition M (A : Type) : Type := env -> list event -> outcome A * list event.

Definition ret {A} (a : A) : M A := fun _ t => (Ok a, t).

Definition raise {A} (e : exn) : M A := fun _ t => (Exc e, t).

Definition bind {A B} (p : M A) (f : A -> M B) : M B :=
  fun E t =>
    match p E t with
    | (Ok a, t') => f a E t'
    | (Exc e, t') => (Exc e, t')
    end.

Definition call (c : outcall) : M value :=
  fun E t =>
    match oracle E t c with
    | Returns v => (Ok v, (t ++ [Called c (Returns v)])%list)
    | Raises e => (Exc e, (t ++ [Called c (Raises e)])%list)
    end.

Definition print (p : printable) : M unit :=
  fun _ t => (Ok tt, (t ++ [Printed p])%list).

Definition ask {A} (f : env -> A) : M A := fun E t => (Ok (f E), t).

(** [try: p  except: h e] for a handler [h] that sees every exception. *)
Definition try_except {A} (p : M A) (h : exn -> M A) : M A :=
  fun E t =>
    match p E t with
    | (Ok a, t') => (Ok a, t')
    | (Exc e, t') => h e E t'
    end.

(** [try: p  except C as e: h e]. *)
Definition try_except_class {A} (c : exn_class) (p : M A) (h : exn -> M A)
  : M A :=
  try_except p (fun e => if exn_class_eqb (cls e) c then h e else raise e).

(** The result of [p] with its exception, if any, made a value. *)
Definition attempt {A} (p : M A) : M (A + exn) :=
  fun E t =>
    match p E t with
    | (Ok a, t') => (Ok (inl a), t')
    | (Exc e, t') => (Ok (inr e), t')
    end.

End Monad.
Export Monad.

Declare Scope monad_scope.
Delimit Scope monad_scope with monad.
Notation "x <- p ;; k" := (bind p (fun x => k))
  (at level 61, p at next level, right associativity) : monad_scope.
Notation "p ;; k" := (bind p (fun _ => k))
  (at level 61, right associativity) : monad_scope.
Open Scope monad_scope.

(** ** Python operations that can raise *)

Module PyOps.

Definition type_error : exn := mkExn TypeError [].
Definition attribute_error : exn := mkExn AttributeError [].
Definition key_error (k : string) : exn := mkExn KeyError [VStr k].
Definition value_error : exn := mkExn ValueError [].

(** [x in c]. *)
Definition py_in (x c : value) : M bool :=
  match c with
  | VDict d =>
      if hashable x
      then ret (match x with VStr k => has_key k d | _ => false end)
      else raise type_error
  | VList l => ret (existsb (py_eq x) l)
  | VStr s =>
      match x with
      | VStr p => ret (is_substring p s)
      | _ => raise type_error
      end
  | _ => raise type_error
  end.

(** [v.get(k, default)]: only dictionaries have [get]. *)
Definition py_get (v : value) (k : string) (default : value) : M value :=
  match v with
  | VDict d => ret (match lookup k d with Some x => x | None => default end)
  | _ => raise attribute_error
  end.

(** The field [k] of a document, if [v] is a dictionary that has it. *)
Definition field (k : string) (v : value) : option value :=
  match v with
  | VDict d => lookup k d
  | _ => None
  end.

(** [v[k]] for a string [k]. *)
Definition getitem (v : value) (k : string) : M value :=
  match v with
  | VDict d =>
      match lookup k d with
      | Some x => ret x
      | None => raise (key_error k)
      end
  | _ => raise type_error
  end.

(** [v[k] = x]; the result is the dictionary after the assignment. *)
Definition setitem (v : value) (k : string) (x : value) : M value :=
  match v with
  | VDict d => ret (VDict (dict_set k x d))
  | _ => raise type_error
  end.

(** [del v[k]]. *)
Definition delitem (v : value) (k : string) : M value :=
  match v with
  | VDict d =>
      if has_key k d then ret (VDict (dict_del k d)) else raise (key_error k)
  | _ => raise type_error
  end.

(** The elements that [for x in v], [list(v)] and [set(v)] go through. *)
Definition py_iter (v : value) : M (list value) :=
  match v with
  | VList l => ret l
  | VDict d => ret (map (fun kv => VStr (fst kv)) d)
  | VStr s => ret (chars s)
  | _ => raise type_error
  end.

(** [a, b = v]: the calls that return a tuple reply with a list. *)
Definition unpack2 (v : value) : M (value * value) :=
  match v with
  | VList [a; b] => ret (a, b)
  | VList _ => raise value_error
  | _ => raise type_error
  end.

Definition unpack3 (v : value) : M (value * value * value) :=
  match v with
  | VList [a; b; c] => ret (a, b, c)
  | VList _ => raise value_error
  | _ => raise type_error
  end.

(** [str(v)], also what ['%s' % v] and ['{}'.format(v)] insert. *)
Definition str_of (E : env) (v : value) : string :=
  match v with
  | VStr s => s
  | VId hex => hex
  | VNone => "None"
  | VBool true => "True"
  | VBool false => "False"
  | _ => repr E v
  end.

Definition py_str (v : value) : M string := ask (fun E => str_of E v).

Definition lower (s : string) : M string := ask (fun E => str_lower E s).

(** [(a - b).total_seconds() <= 0] on two datetimes: the sign of the
    difference, which the conversion to seconds keeps. *)
Definition not_after (a b : value) : M bool :=
  match a, b with
  | VTime x, VTime y => ret (x - y <=? 0)
  | _, _ => raise type_error
  end.

Fixpoint mapM {A B} (f : A -> M B) (l : list A) : M (list B) :=
  match l with
  | [] => ret []
  | x :: xs => y <- f x ;; ys <- mapM f xs ;; ret (y :: ys)
  end.

(** [[f x for x in l if c x]] where both [c] and [f] can raise: [g] gives
    [None] for an element that the condition drops. *)
Fixpoint filter_mapM {A B} (g : A -> M (option B)) (l : list A) : M (list B) :=
  match l with
  | [] => ret []
  | x :: xs =>
      o <- g x ;;
      ys <- filter_mapM g xs ;;
      ret (match o with Some y => y :: ys | None => ys end)
  end.

(** [s[n:]] and [s.split(':', 1)] on a string that contains [':']. *)
Definition str_from (n : nat) (s : string) : string :=
  substring n (String.length s - n) s.

Definition split_colon (s : string) : string * string :=
  match index 0 ":" s with
  | Some i => (substring 0 i s, str_from (S i) s)
  | None => (s, EmptyString)
  end.

End PyOps.
Export PyOps.

(** ** girder/api/v1/user.py: class User *)

Module User.

Definition rest (msg : string) : exn := mkExn RestException [VStr msg].
Definition rest_code (msg : string) (code : value) : exn :=
  mkExn RestException [VStr msg; code].
Definition access_exn (msg : string) : exn := mkExn AccessException [VStr msg].
Definition message (s : string) : value := VDict [("message", VStr s)].

(** The double quote character, for the one message that contains it
    (line 624). *)
Definition dquote : string := String (ascii_of_nat 34) EmptyString.

Definition otp_header_message : string :=
  "The " ++ dquote ++ "Girder-OTP" ++ dquote ++ " header must be provided.".

(** What a handler hands back as the response body: a value, or, in
    [getUserApplets], an exception instance. *)
Inductive response : Type :=
| Body (v : value)
| BodyExc (e : exn).

(** [getGroupInvites], lines 63-64. *)
Definition getGroupInvites : M value :=
  u <- call getCurrentUser ;;
  py_get u "groupInvites" VNone.

(** [find], lines 74-76. *)
Definition find (text limit offset sort : value) : M value :=
  u <- call getCurrentUser ;;
  r <- call (User_search text u offset limit sort) ;;
  l <- py_iter r ;;
  ret (VList l).

(** [getUser], lines 87-88. *)
Definition getUser (user : value) : M value := ret user.

(** [getUserAccess], lines 98-99. *)
Definition getUserAccess (user : value) : M value :=
  call (User_getFullAccessList user).

(** [updateUserAccess], lines 114-119. *)
Definition updateUserAccess (user access : value) : M value :=
  call (User_setAccessList user access true).

(** *** getUserApplets, lines 147-282 *)

(** [applet.get('meta', {}).get('applet', {}).get('deleted', default)]. *)
Definition deleted_flag (applet default : value) : M value :=
  m <- py_get applet "meta" (VDict []) ;;
  a <- py_get m "applet" (VDict []) ;;
  py_get a "deleted" default.

(** Lines 205-227: one [userId] folder of the comprehension, [None] when the
    condition drops it. *)
Definition userid_of (userId : value) : M (option value) :=
  c1 <- py_in (VStr "lowerName") userId ;;
  if negb c1 then ret None else
  ln <- getitem userId "lowerName" ;;
  if negb (py_eq ln (VStr "userid")) then ret None else
  c3 <- py_in (VStr "meta") userId ;;
  if negb c3 then ret None else
  m <- getitem userId "meta" ;;
  c4 <- py_in (VStr "user") m ;;
  if negb c4 then ret None else
  m <- getitem userId "meta" ;;
  u <- getitem m "user" ;;
  c5 <- py_in (VStr "@id") u ;;
  if negb c5 then ret None else
  m <- getitem userId "meta" ;;
  u <- getitem m "user" ;;
  i <- getitem u "@id" ;;
  ret (Some i).

(** Lines 229-249: the applet of the assignment, loaded with the reviewer's
    rights; [None] when nothing is appended.  An [AccessException] is
    printed and dropped. *)
Definition own_applet (assignment reviewer : value) : M (option value) :=
  meta <- getitem assignment "meta" ;;
  c1 <- py_in (VStr "applet") meta ;;
  if negb c1 then ret None else
  meta <- getitem assignment "meta" ;;
  ap <- getitem meta "applet" ;;
  c2 <- py_in (VStr "@id") ap ;;
  if negb c2 then ret None else
  try_except_class AccessException
    (meta <- getitem assignment "meta" ;;
     ap <- getitem meta "applet" ;;
     i <- getitem ap "@id" ;;
     appletToAppend <- call (Applet_load i READ reviewer) ;;
     d <- deleted_flag appletToAppend (VBool false) ;;
     ret (if truthy d then None else Some appletToAppend))
    (fun e => print (PrintExn e) ;; ret None).

(** Lines 199-249: the body of [for assignedUser in ...]; the result is the
    applet that this iteration appends, if any. *)
Definition member_applet (user reviewer assignment assignedUser : value)
  : M (option value) :=
  c1 <- py_in (VStr "roles") assignedUser ;;
  if negb c1 then ret None else
  roles <- getitem assignedUser "roles" ;;
  rs <- py_iter roles ;;
  if negb (forallb hashable rs) then raise type_error else
  if (match rs with [] => true | _ => false end) then ret None else
  c3 <- py_in (VStr "@id") assignedUser ;;
  if negb c3 then ret None else
  c4 <- py_in (VStr "_id") user ;;
  if negb c4 then ret None else
  uid <- getitem user "_id" ;;
  us <- py_str uid ;;
  aid <- getitem assignedUser "@id" ;;
  parent <- call (Folder_load aid NONE reviewer true) ;;
  fs <- call (Folder_childFolders "folder" parent reviewer true) ;;
  fl <- py_iter fs ;;
  ids <- filter_mapM userid_of fl ;;
  if negb (existsb (py_eq (VStr us)) ids) then ret None else
  own_applet assignment reviewer.

(** Lines 194-198: the test of the [if] and the iterable of the [for]; no
    members when the test fails.  In ['members' in x is not None] the
    comparison chain tests ['members' in x] first. *)
Definition assignment_members (assignment : value) : M (list value) :=
  c1 <- py_in (VStr "meta") assignment ;;
  if negb c1 then ret [] else
  x <- py_get assignment "meta" (VDict []) ;;
  c2 <- py_in (VStr "members") x ;;
  if negb (c2 && negb (is_none x)) then ret [] else
  meta <- getitem assignment "meta" ;;
  ms <- getitem meta "members" ;;
  py_iter ms.

(** Lines 192-251.  The [try] encloses the whole processing of one
    assignment and its bare [except] prints the class of the exception: the
    first exception ends the assignment, and what was appended before it
    stays appended.  [applets] is the list being appended to. *)
Fixpoint members_loop (body : value -> M (option value))
  (ms : list value) (applets : list value) : M (list value) :=
  match ms with
  | [] => ret applets
  | m :: ms' =>
      r <- attempt (body m) ;;
      match r with
      | inl None => members_loop body ms' applets
      | inl (Some a) => members_loop body ms' (applets ++ [a])%list
      | inr e => print (PrintClass (cls e)) ;; ret applets
      end
  end.

Definition process_assignment (user reviewer assignment : value)
  (applets : list value) : M (list value) :=
  r <- attempt (assignment_members assignment) ;;
  match r with
  | inl ms => members_loop (member_applet user reviewer assignment) ms applets
  | inr e => print (PrintClass (cls e)) ;; ret applets
  end.

Fixpoint assignments_loop (user reviewer : value) (assignments : list value)
  (applets : list value) : M (list value) :=
  match assignments with
  | [] => ret applets
  | a :: rest =>
      applets' <- process_assignment user reviewer a applets ;;
      assignments_loop user reviewer rest applets'
  end.

(** Lines 252-259: the dictionary keyed by [_id], then its values. *)
Fixpoint kv_set (k v : value) (d : list (value * value))
  : list (value * value) :=
  match d with
  | [] => [(k, v)]
  | (k', v') :: d' =>
      if py_eq k' k then (k', v) :: d' else (k', v') :: kv_set k v d'
  end.

Fixpoint by_id (applets : list value) (d : list (value * value))
  : M (list value) :=
  match applets with
  | [] => ret (map snd d)
  | applet :: rest =>
      match applet with
      | VDict _ =>
          k <- py_get applet "_id" VNone ;;
          if hashable k then by_id rest (kv_set k applet d)
          else raise type_error
      | _ => by_id rest d
      end
  end.

(** Lines 262-282. *)
Definition format_applets (reviewer : value) (applets : list value)
  : M response :=
  try_except
    (l <- filter_mapM
            (fun applet =>
               if is_none applet then ret None else
               d <- deleted_flag applet VNone ;;
               if truthy d then ret None else
               r <- call (formatLdObject applet "applet" reviewer true) ;;
               ret (Some r))
            applets ;;
     ret (Body (VList l)))
    (fun e => ret (BodyExc e)).

Definition applet_query (role : string) (groupId : value) : value :=
  VDict [("roles." ++ role ++ ".groups.id", groupId);
         ("meta.applet.deleted", VDict [("$ne", VBool true)])].

Definition getUserApplets (user : value) (role : string) (ids_only : bool)
  : M response :=
  user <- (if negb (truthy user) then ret user else call getCurrentUser) ;;
  role <- lower role ;;
  roles <- ask USER_ROLES ;;
  if negb (existsb (String.eqb role) roles)
  then raise (rest_code "Invalid user role." (VStr "role")) else
  reviewer <- call getCurrentUser ;;
  groups <- py_get user "groups" (VList []) ;;
  groupIds <- py_iter groups ;;
  found <- mapM (fun groupId =>
                   r <- call (Applet_find (applet_query role groupId)) ;;
                   py_iter r) groupIds ;;
  let applets := concat found in
  cs <- call (Collection_find (VDict [("name", VStr "Assignments")])) ;;
  collections <- py_iter cs ;;
  fromCollections <- mapM (fun collection =>
                             r <- call (Folder_childFolders "collection"
                                          collection reviewer false) ;;
                             py_iter r) collections ;;
  parentId <- py_get (if truthy reviewer then reviewer else VDict [])
                "_id" VNone ;;
  fs <- call (Folder_find (VDict [("parentId", parentId);
                                  ("baseParentType", VStr "user");
                                  ("name", VStr "Assignments")])) ;;
  fromUser <- py_iter fs ;;
  let assignments := (concat fromCollections ++ fromUser)%list in
  applets <- assignments_loop user reviewer assignments applets ;;
  applets <- by_id applets [] ;;
  if ids_only
  then ids <- mapM (fun applet => py_get applet "_id" VNone) applets ;;
       ret (Body (VList ids))
  else format_applets reviewer applets.

(** [getMe], lines 290-291. *)
Definition getMe : M value := call getCurrentUser.

(** [authHeader[0:6] == 'Basic '] on a header, which is a string. *)
Definition starts_basic (authHeader : value) : M bool :=
  match authHeader with
  | VStr s => ret (String.eqb (substring 0 6 s) "Basic ")
  | VList _ => ret false
  | _ => raise type_error
  end.

Definition header_tail (authHeader : value) : M string :=
  match authHeader with
  | VStr s => ret (str_from 6 s)
  | _ => raise type_error
  end.

(** Lines 311-331: the branch of [login] taken when no valid cookie came
    with the request; the result is the user and the new token. *)
Definition login_basic : M (value * value) :=
  authHeader <- call (request_header "Authorization") ;;
  authHeader <- (if negb (truthy authHeader)
                 then call (request_header "Girder-Authorization")
                 else ret authHeader) ;;
  basic <- (if negb (truthy authHeader) then ret false
            else starts_basic authHeader) ;;
  if negb basic
  then raise (rest_code "Use HTTP Basic Authentication" (VInt 401)) else
  credentials <-
    try_except
      (tail <- header_tail authHeader ;;
       c <- call (b64decode_utf8 tail) ;;
       has <- py_in (VStr ":") c ;;
       if negb has then raise type_error else ret c)
      (fun _ =>
         raise (rest_code "Invalid HTTP Authorization header" (VInt 401))) ;;
  match credentials with
  | VStr c =>
      let (login, password) := split_colon c in
      otpToken <- call (request_header "Girder-OTP") ;;
      user <- call (User_authenticate login password otpToken) ;;
      call (setCurrentUser user) ;;
      token <- call (sendAuthTokenCookie user) ;;
      ret (user, token)
  | _ => raise attribute_error
  end.

(** [login], lines 303-341. *)
Definition login : M value :=
  enabled <- call (Setting_get ENABLE_PASSWORD_LOGIN) ;;
  if negb (truthy enabled)
  then raise (rest "Password login is disabled on this instance.") else
  r <- call getCurrentUser_returnToken ;;
  ut <- unpack2 r ;;
  ut <- (if negb (truthy (fst ut)) then login_basic else ret ut) ;;
  let (user, token) := ut in
  filtered <- call (User_filter user user) ;;
  tid <- getitem token "_id" ;;
  expires <- getitem token "expires" ;;
  scope <- getitem token "scope" ;;
  ret (VDict [("user", filtered);
              ("authToken", VDict [("token", tid); ("expires", expires);
                                   ("scope", scope)]);
              ("message", VStr "Login succeeded.")]).

(** [logout], lines 349-354. *)
Definition logout : M value :=
  token <- call getCurrentToken ;;
  (if truthy token then call (Token_remove token) ;; ret tt else ret tt) ;;
  call deleteAuthTokenCookie ;;
  ret (message "Logged out.").

(** Lines 376-381 of [createUser]: the admin flag that is passed on. *)
Definition registration_gate (currentUser regPolicy : value) (admin : bool)
  : M bool :=
  notAdmin <- (if negb (truthy currentUser) then ret true
               else a <- getitem currentUser "admin" ;; ret (negb (truthy a))) ;;
  if notAdmin
  then if py_eq regPolicy (VStr "closed")
       then raise (rest ("Registration on this instance is closed. Contact an "
                         ++ "administrator to create an account for you."))
       else ret false
  else ret admin.

(** Lines 396-415 of [createUser]: the "New Users" group. *)
Definition join_new_users (user : value) : M unit :=
  found <- call (Group_findOne (VDict [("name", VStr "New Users")])) ;;
  newUserGroup <-
    (if negb (is_none found) && truthy found then ret found
     else creator <- call (User_findOne (VDict [("admin", VBool true)])
                             [("created", ASCENDING)]) ;;
          call (Group_createGroup "New Users" creator false)) ;;
  group <- call (Group_addUser newUserGroup user READ) ;;
  acc <- call (Group_getFullAccessList group) ;;
  group <- setitem group "access" acc ;;
  reqs <- call (Group_getFullRequestList group) ;;
  rl <- py_iter reqs ;;
  group <- setitem group "requests" (VList rl) ;;
  ret tt.

(** [createUser], lines 371-417.  [firstName] may be [None]. *)
Definition createUser (login email : string) (firstName : option string)
  (lastName password : string) (admin : bool) : M value :=
  currentUser <- call getCurrentUser ;;
  regPolicy <- call (Setting_get REGISTRATION_POLICY) ;;
  admin <- registration_gate currentUser regPolicy admin ;;
  user <- call (User_createUser login password email
                  (match firstName with Some f => f | None => EmptyString end)
                  lastName admin currentUser) ;;
  user <- (if negb (truthy currentUser)
           then can <- call (User_canLogin user) ;;
                if truthy can
                then call (setCurrentUser user) ;;
                     token <- call (sendAuthTokenCookie user) ;;
                     tid <- getitem token "_id" ;;
                     expires <- getitem token "expires" ;;
                     setitem user "authToken"
                       (VDict [("token", tid); ("expires", expires)])
                else ret user
           else ret user) ;;
  join_new_users user ;;
  ret user.

(** [deleteUser], lines 426-428. *)
Definition deleteUser (user : value) : M value :=
  call (User_remove user) ;;
  l <- getitem user "login" ;;
  s <- py_str l ;;
  ret (message ("Deleted user " ++ s ++ ".")).

(** [getUsersDetails], lines 434-436. *)
Definition getUsersDetails : M value :=
  u <- call getCurrentUser ;;
  nUsers <- call (User_findWithPermissions_count u) ;;
  ret (VDict [("nUsers", nUsers)]).

(** Lines 459-464 of [updateUser]. *)
Definition update_admin (user : value) (admin : option bool) : M value :=
  match admin with
  | None => ret user
  | Some a =>
      cu <- call getCurrentUser ;;
      ca <- getitem cu "admin" ;;
      if truthy ca then setitem user "admin" (VBool a)
      else ua <- getitem user "admin" ;;
           if negb (is_bool ua a)
           then raise (access_exn "Only admins may change admin status.")
           else ret user
  end.

(** Lines 466-473 of [updateUser]. *)
Definition update_status (user : value) (status : option string) : M value :=
  match status with
  | None => ret user
  | Some s =>
      current <- py_get user "status" (VStr "enabled") ;;
      if py_eq (VStr s) current then ret user else
      cu <- call getCurrentUser ;;
      ca <- getitem cu "admin" ;;
      if negb (truthy ca)
      then raise (access_exn "Only admins may change status.") else
      us <- getitem user "status" ;;
      (if py_eq us (VStr "pending") && String.eqb s "enabled"
       then call (User_sendApprovedEmail user) ;; ret tt
       else ret tt) ;;
      setitem user "status" (VStr s)
  end.

(** [updateUser], lines 454-475. *)
Definition updateUser (user : value) (firstName lastName email : string)
  (admin : option bool) (status : option string) : M value :=
  user <- setitem user "firstName" (VStr firstName) ;;
  user <- setitem user "lastName" (VStr lastName) ;;
  user <- setitem user "email" (VStr email) ;;
  user <- update_admin user admin ;;
  user <- update_status user status ;;
  call (User_save user).

(** [changeUserPassword], lines 486-488. *)
Definition changeUserPassword (user : value) (password : string) : M value :=
  call (User_setPassword user password) ;;
  ret (message "Password changed.").

(** Lines 510-512 of [changePassword]: the test that refuses [token]. *)
Definition token_refused (token user : value) : M bool :=
  if negb (truthy token) then ret true else
  uid <- py_get token "userId" VNone ;;
  if negb (truthy uid) then ret true else
  tuid <- getitem token "userId" ;;
  u_id <- getitem user "_id" ;;
  if negb (py_eq tuid u_id) then ret true else
  hs <- call (Token_hasScope token TEMPORARY_USER_AUTH) ;;
  ret (negb (truthy hs)).

(** Lines 506-507 of [changePassword]: [old] is not the user's password. *)
Definition not_the_password (user : value) (old : string) : M bool :=
  hp <- call (User_hasPassword user) ;;
  if negb (truthy hp) then ret true else
  salt <- getitem user "salt" ;;
  ok <- call (User_cryptContext_verify old salt) ;;
  ret (negb (truthy ok)).

(** [changePassword], lines 499-521. *)
Definition changePassword (old new : string) : M value :=
  user <- call getCurrentUser ;;
  if String.eqb old EmptyString
  then raise (rest "Old password must not be empty.") else
  wrong <- not_the_password user old ;;
  token <- (if wrong
            then token <- call (Token_load old None None true false false) ;;
                 refused <- token_refused token user ;;
                 if refused
                 then raise (access_exn "Old password is incorrect.")
                 else ret token
            else ret VNone) ;;
  call (User_setPassword user new) ;;
  (if truthy token then call (Token_remove token) ;; ret tt else ret tt) ;;
  ret (message "Password changed.").

(** [generateTemporaryPassword], lines 530-549. *)
Definition generateTemporaryPassword (email : string) : M value :=
  le <- lower email ;;
  user <- call (User_findOne (VDict [("email", VStr le)]) []) ;;
  if negb (truthy user)
  then raise (rest "That email is not registered.") else
  token <- call (Token_createToken user 1 TEMPORARY_USER_AUTH) ;;
  prefix <- call getEmailUrlPrefix ;;
  uid <- getitem user "_id" ;;
  us <- py_str uid ;;
  tid <- getitem token "_id" ;;
  ts <- py_str tid ;;
  ps <- py_str prefix ;;
  let url := ps ++ "#useraccount/" ++ us ++ "/token/" ++ ts in
  tid <- getitem token "_id" ;;
  ts <- py_str tid ;;
  html <- call (renderTemplate "temporaryAccess.mako"
                  (VDict [("url", VStr url); ("token", VStr ts)])) ;;
  brand <- call (Setting_get BRAND_NAME) ;;
  bs <- py_str brand ;;
  call (sendEmail email (bs ++ ": Temporary access") html) ;;
  ret (message "Sent temporary access email.").

(** Lines 563-566 and 661-664: the test shared by [checkTemporaryPassword]
    and [verifyEmail], true when the token is refused. *)
Definition token_invalid (token user : value) (scope : token_scope)
  : M bool :=
  expires <- getitem token "expires" ;;
  now <- call utcnow ;;
  late <- not_after expires now ;;
  hasScope <- call (Token_hasScope token scope) ;;
  owner <- py_get token "userId" VNone ;;
  u_id <- getitem user "_id" ;;
  ret (negb (py_eq owner u_id) || late || negb (truthy hasScope)).

(** [checkTemporaryPassword], lines 560-582. *)
Definition checkTemporaryPassword (user : value) (token : string) : M value :=
  token <- call (Token_load token (Some user) (Some ADMIN) false false true) ;;
  invalid <- token_invalid token user TEMPORARY_USER_AUTH ;;
  if invalid
  then raise (access_exn
                "The token does not grant temporary access to this user.")
  else
  authToken <- call (sendAuthTokenCookie user) ;;
  filtered <- call (User_filter user user) ;;
  tid <- getitem authToken "_id" ;;
  expires <- getitem authToken "expires" ;;
  ret (VDict [("user", filtered);
              ("authToken", VDict [("token", tid); ("expires", expires);
                                   ("temporary", VBool true)]);
              ("message", VStr "Temporary access token is valid.")]).

(** [getUserDetails], lines 591-595. *)
Definition getUserDetails (user : value) : M value :=
  cu <- call getCurrentUser ;;
  n <- call (User_countFolders user cu READ) ;;
  ret (VDict [("nFolders", n)]).

(** [initializeOtp], lines 604-611. *)
Definition initializeOtp (user : value) : M value :=
  enabled <- call (User_hasOtpEnabled user) ;;
  if truthy enabled
  then raise (rest "The user has already enabled one-time passwords.") else
  otpUris <- call (User_initializeOtp user) ;;
  call (User_save user) ;;
  ret otpUris.

(** [finalizeOtp], lines 621-635. *)
Definition finalizeOtp (user : value) : M value :=
  otpToken <- call (request_header "Girder-OTP") ;;
  if negb (truthy otpToken)
  then raise (rest otp_header_message) else
  initialized <- py_in (VStr "otp") user ;;
  if negb initialized
  then raise (rest "The user has not initialized one-time passwords.") else
  enabled <- call (User_hasOtpEnabled user) ;;
  if truthy enabled
  then raise (rest "The user has already enabled one-time passwords.") else
  otp <- getitem user "otp" ;;
  otp <- setitem otp "enabled" (VBool true) ;;
  user <- setitem user "otp" otp ;;
  call (User_verifyOtp user otpToken) ;;
  call (User_save user) ;;
  ret VNone.

(** [removeOtp], lines 644-649. *)
Definition removeOtp (user : value) : M value :=
  enabled <- call (User_hasOtpEnabled user) ;;
  if negb (truthy enabled)
  then raise (rest "The user has not enabled one-time passwords.") else
  user <- delitem user "otp" ;;
  call (User_save user) ;;
  ret VNone.

(** [verifyEmail], lines 658-687. *)
Definition verifyEmail (user : value) (token : string) : M value :=
  token <- call (Token_load token (Some user) (Some ADMIN) false false true) ;;
  invalid <- token_invalid token user EMAIL_VERIFICATION ;;
  if invalid then raise (access_exn "The token is invalid or expired.") else
  user <- setitem user "emailVerified" (VBool true) ;;
  call (Token_remove token) ;;
  user <- call (User_save user) ;;
  can <- call (User_canLogin user) ;;
  if truthy can
  then call (setCurrentUser user) ;;
       authToken <- call (sendAuthTokenCookie user) ;;
       filtered <- call (User_filter user user) ;;
       tid <- getitem authToken "_id" ;;
       expires <- getitem authToken "expires" ;;
       scope <- getitem authToken "scope" ;;
       ret (VDict [("user", filtered);
                   ("authToken", VDict [("token", tid); ("expires", expires);
                                        ("scope", scope)]);
                   ("message", VStr "Email verification succeeded.")])
  else filtered <- call (User_filter user user) ;;
       ret (VDict [("user", filtered);
                   ("message", VStr "Email verification succeeded.")]).

(** [sendVerificationEmail], lines 695-703. *)
Definition sendVerificationEmail (login : string) : M value :=
  let loginField := if is_substring "@" login then "email" else "login" in
  ll <- lower login ;;
  user <- call (User_findOne (VDict [(loginField, VStr ll)]) []) ;;
  if negb (truthy user)
  then raise (rest_code "That login is not registered." (VInt 401)) else
  call (User_sendVerificationEmail user) ;;
  ret (message "Sent verification email.").

End User.

(** ** plugins/mongo_search/server/__init__.py: class ResourceExt *)

Module ResourceExt.

(** Lines 33-38: the allow-list literal.  The source lacks the comma after
    the ['collection'] entry; the four entries are read as the literal
    lists them. *)
Definition core_fields : value :=
  VList [VStr "_id"; VStr "name"; VStr "description"].

Definition allowed : value :=
  VDict [("collection", core_fields);
         ("folder", core_fields);
         ("item", core_fields);
         ("user", VList [VStr "_id"; VStr "firstName"; VStr "lastName";
                         VStr "login"])].

(** [d[k]] for a key that is itself a value. *)
Definition getitem_v (d k : value) : M value :=
  match k with
  | VStr s => getitem d s
  | _ =>
      match d with
      | VDict _ =>
          if hashable k then raise (mkExn KeyError [k]) else raise type_error
      | _ => raise type_error
      end
  end.

(** [mongoSearch], lines 31-62.  The event handlers receive the [allowed]
    dictionary itself and may write into it: the reply of [events_trigger]
    is that dictionary as they left it.  An [offset] that [find] is not
    given is [VNone]. *)
Definition mongoSearch (params : value) : M value :=
  call (requireParams ["type"; "q"] params) ;;
  r <- call (getPagingParameters params "name") ;;
  los <- unpack3 r ;;
  let '(limit, offset, sort) := los in
  coll <- getitem params "type" ;;
  allowed <- call (events_trigger "mongo_search.allowed_collections"
                     allowed) ;;
  known <- py_in coll allowed ;;
  if negb known
  then s <- py_str coll ;;
       raise (User.rest ("Invalid resource type: " ++ s)) else
  query <- try_except_class ValueError
             (q <- getitem params "q" ;; call (json_loads q))
             (fun _ =>
                raise (User.rest "Invalid JSON passed in request body.")) ;;
  model <- call (ModelImporter_model coll) ;;
  filtering <- call (hasattr model "filterSearchResults") ;;
  if truthy filtering
  then fields <- getitem_v allowed coll ;;
       cursor <- call (Model_find model query fields (VInt 0) VNone) ;;
       cu <- call getCurrentUser ;;
       rs <- call (Model_filterResultsByPermission model cursor cu READ
                     limit offset) ;;
       l <- py_iter rs ;;
       ret (VList l)
  else fields <- getitem_v allowed coll ;;
       rs <- call (Model_find model query fields limit offset) ;;
       l <- py_iter rs ;;
       ret (VList l).

End ResourceExt.

(** ** The route table *)

(** A request that the router has matched, with the parameters that the
    route description declares: a [modelParam] arrives as the loaded
    document, a boolean as a [bool], an optional parameter as an [option]. *)
Inductive request : Type :=
| DELETE_authentication
| DELETE_user (user : value)
| GET_users (text limit offset sort : value)
| GET_me
| GET_authentication
| GET_user (user : value)
| GET_access (user : value)
| PUT_access (user access : value)
| GET_applets (user : value) (role : string) (ids_only : bool)
| GET_details (user : value)
| GET_invites
| GET_users_details
| POST_user (login email : string) (firstName : option string)
    (lastName password : string) (admin : bool)
| PUT_user (user : value) (firstName lastName email : string)
    (admin : option bool) (status : option string)
| PUT_password (old new : string)
| PUT_user_password (user : value) (password : string)
| GET_password_temporary (user : value) (token : string)
| PUT_password_temporary (email : string)
| POST_otp (user : value)
| PUT_otp (user : value)
| DELETE_otp (user : value)
| PUT_verification (user : value) (token : string)
| POST_verification (login : string)
| GET_mongo_search (params : value).

Definition body (p : M value) : M User.response :=
  v <- p ;; ret (User.Body v).

(** Lines 32-56 of user.py and line 78 of the plugin. *)
Definition route (r : request) : M User.response :=
  match r with
  | DELETE_authentication => body User.logout
  | DELETE_user user => body (User.deleteUser user)
  | GET_users text limit offset sort =>
      body (User.find text limit offset sort)
  | GET_me => body User.getMe
  | GET_authentication => body User.login
  | GET_user user => body (User.getUser user)
  | GET_access user => body (User.getUserAccess user)
  | PUT_access user access => body (User.updateUserAccess user access)
  | GET_applets user role ids_only => User.getUserApplets user role ids_only
  | GET_details user => body (User.getUserDetails user)
  | GET_invites => body User.getGroupInvites
  | GET_users_details => body User.getUsersDetails
  | POST_user login email firstName lastName password admin =>
      body (User.createUser login email firstName lastName password admin)
  | PUT_user user firstName lastName email admin status =>
      body (User.updateUser user firstName lastName email admin status)
  | PUT_password old new => body (User.changePassword old new)
  | PUT_user_password user password =>
      body (User.changeUserPassword user password)
  | GET_password_temporary user token =>
      body (User.checkTemporaryPassword user token)
  | PUT_password_temporary email =>
      body (User.generateTemporaryPassword email)
  | POST_otp user => body (User.initializeOtp user)
  | PUT_otp user => body (User.finalizeOtp user)
  | DELETE_otp user => body (User.removeOtp user)
  | PUT_verification user token => body (User.verifyEmail user token)
  | POST_verification login => body (User.sendVerificationEmail login)
  | GET_mongo_search params => body (ResourceExt.mongoSearch params)
  end.

(** From here on [++] is the concatenation of lists. *)
Open Scope list_scope.

(** ** Runs and their properties *)

(** The run of a handler on a fresh request. *)
Definition run {A} (p : M A) (E : env) : outcome A * list event := p E [].

(** [post p E t Q]: started in environment [E] with log [t], the computation
    [p] ends with an outcome and a log that satisfy [Q]. *)
Definition post {A} (p : M A) (E : env) (t : list event)
  (Q : outcome A -> list event -> Prop) : Prop :=
  Q (fst (p E t)) (snd (p E t)).

(** No call of the log raised and nothing was printed. *)
Definition quiet_event (ev : event) : bool :=
  match ev with
  | Called _ (Returns _) => true
  | _ => false
  end.

Definition quiet (t : list event) : bool := forallb quiet_event t.

(** The errors of the Python operations on documents. *)
Definition python_error (e : exn) : bool :=
  match cls e with
  | TypeError | KeyError | AttributeError | ValueError => true
  | _ => false
  end.

(** A computation that makes no call: it yields a value or a Python error
    and leaves the log as it is. *)
Definition pyop {A} (p : M A) : Prop :=
  forall E t,
    (exists a, p E t = (Ok a, t)) \/
    (exists e, p E t = (Exc e, t) /\ python_error e = true).

(** Every call of the log satisfies [P]. *)
Definition calls_within (P : outcall -> bool) (t : list event) : Prop :=
  forall c r, In (Called c r) t -> P c = true.

(** ** A demonstration environment

    Documents and collaborators for the concrete runs below: two users, a
    temporary token, and an oracle that answers from these. *)

Module Demo.

Definition alice : value :=
  VDict [("_id", VId "a11ce"); ("login", VStr "alice");
         ("email", VStr "alice@example.org"); ("salt", VStr "hash-of-alice");
         ("admin", VBool false); ("status", VStr "enabled");
         ("groups", VList [VId "group-a"])].

Definition bob : value :=
  VDict [("_id", VId "b0b"); ("login", VStr "bob");
         ("email", VStr "bob@example.org"); ("salt", VStr "hash-of-bob");
         ("admin", VBool false); ("status", VStr "enabled");
         ("groups", VList [VId "group-b"])].

Definition root : value :=
  VDict [("_id", VId "f00"); ("login", VStr "root");
         ("email", VStr "root@example.org"); ("salt", VStr "hash-of-root");
         ("admin", VBool true); ("status", VStr "enabled");
         ("groups", VList [])].

Definition temp_token : value :=
  VDict [("_id", VStr "tok-1"); ("userId", VId "a11ce");
         ("expires", VTime 2000); ("scope", VList [VStr "temporary"])].

Definition auth_token : value :=
  VDict [("_id", VStr "tok-2"); ("userId", VId "a11ce");
         ("expires", VTime 9000); ("scope", VList [VStr "auth"])].

Definition roles : list string :=
  ["user"; "coordinator"; "editor"; "manager"; "reviewer"].

(** An environment around an oracle; strings are taken as lower case
    already. *)
Definition world (o : list event -> outcall -> reply) : env :=
  mkEnv o roles (fun s => s) (fun _ => "?").

(** The collaborators of the temporary password flow: the mail address is
    alice's, the clock shows 1000, the token carries the temporary scope. *)
Definition temporary_flow (t : list event) (c : outcall) : reply :=
  match c with
  | getCurrentUser => Returns alice
  | User_findOne _ _ => Returns alice
  | Token_createToken _ _ _ => Returns temp_token
  | Token_load _ _ _ _ _ _ => Returns temp_token
  | Token_hasScope _ TEMPORARY_USER_AUTH => Returns (VBool true)
  | utcnow => Returns (VTime 1000)
  | sendAuthTokenCookie _ => Returns auth_token
  | User_filter doc _ => Returns doc
  | getEmailUrlPrefix => Returns (VStr "https://example.org/")
  | renderTemplate _ _ => Returns (VStr "<p>temporary access</p>")
  | Setting_get BRAND_NAME => Returns (VStr "MindLogger")
  | _ => Returns VNone
  end.

(** A user who has initialized OTP and not yet enabled it, and the same
    user once enabled. *)
Definition carol : value :=
  VDict [("_id", VId "ca401"); ("login", VStr "carol");
         ("admin", VBool false);
         ("otp", VDict [("totp", VStr "secret"); ("enabled", VBool false)])].

Definition carol_enabled : value :=
  VDict [("_id", VId "ca401"); ("login", VStr "carol");
         ("admin", VBool false);
         ("otp", VDict [("totp", VStr "secret"); ("enabled", VBool true)])].

(** The collaborators of the OTP endpoints: the request carries a code and
    the model goes by the [enabled] flag of the document. *)
Definition otp_flow (t : list event) (c : outcall) : reply :=
  match c with
  | request_header "Girder-OTP" => Returns (VStr "123456")
  | User_hasOtpEnabled u =>
      Returns (match field "otp" u with
               | Some otp =>
                   match field "enabled" otp with
                   | Some e => e
                   | None => VBool false
                   end
               | None => VBool false
               end)
  | User_save u => Returns u
  | _ => Returns VNone
  end.

(** A new user as the model creates it, and as [createUser] returns it
    once it has logged the user in. *)
Definition dave : value :=
  VDict [("_id", VId "da7e"); ("login", VStr "dave");
         ("email", VStr "dave@example.org"); ("admin", VBool false);
         ("status", VStr "enabled"); ("groups", VList [])].

Definition dave_logged_in : value :=
  VDict [("_id", VId "da7e"); ("login", VStr "dave");
         ("email", VStr "dave@example.org"); ("admin", VBool false);
         ("status", VStr "enabled"); ("groups", VList []);
         ("authToken",
          VDict [("token", VStr "tok-2"); ("expires", VTime 9000)])].

Definition new_users : value :=
  VDict [("_id", VId "9e0"); ("name", VStr "New Users");
         ("public", VBool false)].

(** The collaborators of a registration by an anonymous visitor on an open
    instance without a "New Users" group. *)
Definition registration (t : list event) (c : outcall) : reply :=
  match c with
  | getCurrentUser => Returns VNone
  | Setting_get REGISTRATION_POLICY => Returns (VStr "open")
  | User_createUser _ _ _ _ _ _ _ => Returns dave
  | User_canLogin _ => Returns (VBool true)
  | sendAuthTokenCookie _ => Returns auth_token
  | Group_findOne _ => Returns VNone
  | User_findOne _ _ => Returns root
  | Group_createGroup _ _ _ => Returns new_users
  | Group_addUser g _ _ => Returns g
  | Group_getFullAccessList _ => Returns (VDict [])
  | Group_getFullRequestList _ => Returns (VList [])
  | _ => Returns VNone
  end.

(** The collaborators of a request by alice, who is not an admin. *)
Definition alice_session (t : list event) (c : outcall) : reply :=
  match c with
  | getCurrentUser => Returns alice
  | User_save u => Returns u
  | _ => Returns VNone
  end.

(** The collaborators of a search: a plugin has registered an event handler
    that adds the collection "applet" to the allow-list. *)
Definition applet_fields : value := VList [VStr "_id"; VStr "meta"].

Definition search_params : value :=
  VDict [("type", VStr "applet"); ("q", VStr "{}")].

Definition search_flow (t : list event) (c : outcall) : reply :=
  match c with
  | getPagingParameters _ _ => Returns (VList [VInt 50; VInt 0; VNone])
  | events_trigger _ (VDict info) =>
      Returns (VDict (dict_set "applet" applet_fields info))
  | json_loads _ => Returns (VDict [])
  | ModelImporter_model name => Returns name
  | hasattr _ _ => Returns (VBool false)
  | Model_find _ _ _ _ _ => Returns (VList [])
  | _ => Returns VNone
  end.

(** Applets, and the collaborators of [getUserApplets] in a session of bob:
    the applet model finds an applet per group, there are no
    assignments. *)
Definition applet_a : value :=
  VDict [("_id", VId "applet-a"); ("meta", VDict [("applet", VDict [])])].

Definition applet_b : value :=
  VDict [("_id", VId "applet-b"); ("meta", VDict [("applet", VDict [])])].

Definition applets_flow (t : list event) (c : outcall) : reply :=
  match c with
  | getCurrentUser => Returns bob
  | Applet_find (VDict ((_, VId "group-a") :: _)) => Returns (VList [applet_a])
  | Applet_find (VDict ((_, VId "group-b") :: _)) => Returns (VList [applet_b])
  | Applet_find _ => Returns (VList [])
  | Collection_find _ => Returns (VList [])
  | Folder_find _ => Returns (VList [])
  | _ => Returns VNone
  end.

(** An assignment of an applet that bob may not read, with bob among its
    members; the collaborators of [getUserApplets] in a session of bob where
    the applet model denies the read and the JSON-LD expander fails. *)
Definition assignment : value :=
  VDict [("_id", VId "assignment-1");
         ("meta",
          VDict [("members",
                  VList [VDict [("roles", VList [VStr "user"]);
                                ("@id", VId "member-folder")]]);
                 ("applet", VDict [("@id", VId "applet-x")])])].

Definition userid_folder : value :=
  VDict [("lowerName", VStr "userid");
         ("meta", VDict [("user", VDict [("@id", VStr "b0b")])])].

Definition denied : exn :=
  mkExn AccessException [VStr "Read access denied for applet."].

Definition expansion_failed : exn :=
  mkExn ValidationException [VStr "Invalid JSON-LD."].

Definition assignments_flow (t : list event) (c : outcall) : reply :=
  match c with
  | getCurrentUser => Returns bob
  | Applet_find _ => Returns (VList [applet_b])
  | Collection_find _ => Returns (VList [VDict [("_id", VId "c0")]])
  | Folder_childFolders "collection" _ _ _ => Returns (VList [assignment])
  | Folder_childFolders _ _ _ _ => Returns (VList [userid_folder])
  | Folder_load _ _ _ _ => Returns (VDict [("_id", VId "member-folder")])
  | Folder_find _ => Returns (VList [])
  | Applet_load _ _ _ => Raises denied
  | formatLdObject _ _ _ _ => Raises expansion_failed
  | _ => Returns VNone
  end.

End Demo.

(** ** Predicates of the claims *)

(** The calls that [generateTemporaryPassword] makes: it reads the user,
    creates a token, renders and sends the mail.  None of them is
    [User_save] or [User_setPassword]. *)
Definition temp_password_calls (c : outcall) : bool :=
  match c with
  | User_findOne _ _ | Token_createToken _ _ _ | getEmailUrlPrefix
  | renderTemplate _ _ | Setting_get _ | sendEmail _ _ _ => true
  | _ => false
  end.

(** The user model's calls that write a user's password and salt. *)
Definition writes_password (c : outcall) : bool :=
  match c with
  | User_save _ | User_setPassword _ _ | User_createUser _ _ _ _ _ _ _ => true
  | _ => false
  end.

(** The three reasons for which a presented token grants no temporary access
    to the user with id [user_id]: it belongs to somebody else, it has
    expired ([expires] is not after [now]), or it lacks the scope. *)
Definition temporary_access_refused (token user_id : value) (expires now : Z)
  (hasScope : value) : bool :=
  negb (py_eq (match field "userId" token with Some o => o | None => VNone end)
          user_id)
  || (expires <=? now)
  || negb (truthy hasScope).

Definition not_token_remove (c : outcall) : bool :=
  match c with
  | Token_remove _ => false
  | _ => true
  end.




Definition not_save (c : outcall) : bool :=
  match c with
  | User_save _ => false
  | _ => true
  end.


(** Some [getCurrentUser] call of the log returned an admin. *)
Definition caller_is_admin (t : list event) : Prop :=
  exists cu ca,
    In (Called getCurrentUser (Returns cu)) t /\
    field "admin" cu = Some ca /\ truthy ca = true.

(** Every [getCurrentUser] call of the log returned a user who is not an
    admin, and no call raised. *)
Definition caller_not_admin (t : list event) : Prop :=
  (forall cu, In (Called getCurrentUser (Returns cu)) t ->
              exists ca, field "admin" cu = Some ca /\ truthy ca = false) /\
  (forall c e, ~ In (Called c (Raises e)) t).

(** The status that [updateUser] compares the requested one with. *)
Definition current_status (user : value) : value :=
  match field "status" user with
  | Some s => s
  | None => VStr "enabled"
  end.

(** What the claim says of [updateUser]: with no condition of its own, a
    run in which no collaborator raises saves the user with the admin flag
    and the status that were asked for. *)
Definition saves_as_asked (E : env) (user : value)
  (firstName lastName email : string) (admin : option bool)
  (status : option string) : Prop :=
  post (User.updateUser user firstName lastName email admin status) E []
    (fun o t =>
       (forall c e, ~ In (Called c (Raises e)) t) ->
       exists saved r,
         In (Called (User_save saved) r) t /\
         (forall a, admin = Some a -> field "admin" saved = Some (VBool a)) /\
         (forall s, status = Some s -> field "status" saved = Some (VStr s))).


Definition allowed_collections : string := "mongo_search.allowed_collections".







(** ** Predicates of the further properties *)

Module More.

(** Collaborators that know nothing: every lookup comes back empty. *)
Definition nobody (t : list event) (c : outcall) : reply := Returns VNone.






(** A user document without a [status] field, and the collaborators of a
    request by root, who is an admin. *)
Definition zoe : value :=
  VDict [("_id", VId "20e"); ("login", VStr "zoe"); ("admin", VBool false)].

Definition root_session (t : list event) (c : outcall) : reply :=
  match c with
  | getCurrentUser => Returns Demo.root
  | User_save u => Returns u
  | _ => Returns VNone
  end.

(** The collaborators of a login without a session: the credentials come
    in the [Girder-Authorization] header, and the password has a colon. *)
Definition basic_login (t : list event) (c : outcall) : reply :=
  match c with
  | Setting_get ENABLE_PASSWORD_LOGIN => Returns (VBool true)
  | getCurrentUser_returnToken => Returns (VList [VNone; VNone])
  | request_header "Girder-Authorization" =>
      Returns (VStr "Basic YWxpY2U6czNjOnJldA==")
  | b64decode_utf8 _ => Returns (VStr "alice:s3c:ret")
  | User_authenticate "alice" "s3c:ret" _ => Returns Demo.alice
  | User_authenticate _ _ _ =>
      Raises (mkExn AccessException [VStr "Login failed."])
  | sendAuthTokenCookie _ => Returns Demo.auth_token
  | User_filter doc _ => Returns doc
  | _ => Returns VNone
  end.

(** Two versions of an applet, and an applet marked as deleted. *)
Definition applet_old : value :=
  VDict [("_id", VId "applet-a"); ("name", VStr "old")].

Definition applet_new : value :=
  VDict [("_id", VId "applet-a"); ("name", VStr "new")].

Definition applet_gone : value :=
  VDict [("_id", VId "applet-c");
         ("meta", VDict [("applet", VDict [("deleted", VBool true)])])].

(** The collaborators of the formatting: the expander wraps what it is
    given. *)
Definition expander (t : list event) (c : outcall) : reply :=
  match c with
  | formatLdObject obj _ _ _ => Returns (VDict [("applet", obj)])
  | _ => Returns VNone
  end.


(** The calls that [getUserApplets] makes before it looks at any model. *)
Definition only_getCurrentUser (c : outcall) : bool :=
  match c with
  | getCurrentUser => true
  | _ => false
  end.


(** The calls that [login] makes for a request that carries a valid
    session. *)
Definition session_calls (c : outcall) : bool :=
  match c with
  | Setting_get ENABLE_PASSWORD_LOGIN | getCurrentUser_returnToken
  | User_filter _ _ => true
  | _ => false
  end.

(** The calls by which [login] reads and checks credentials. *)
Definition no_authentication (c : outcall) : bool :=
  match c with
  | User_authenticate _ _ _ | setCurrentUser _ | sendAuthTokenCookie _ => false
  | _ => true
  end.

Definition no_decoding (c : outcall) : bool :=
  match c with
  | b64decode_utf8 _ => false
  | c => no_authentication c
  end.

(** The header from which [login] takes the credentials: [Authorization],
    or [Girder-Authorization] when the former is missing or empty. *)
Definition header_used (t : list event) (h : value) : Prop :=
  (In (Called (request_header "Authorization") (Returns h)) t /\
   truthy h = true) \/
  (exists missing,
     In (Called (request_header "Authorization") (Returns missing)) t /\
     truthy missing = false /\
     In (Called (request_header "Girder-Authorization") (Returns h)) t).

(** Every [getCurrentUser] call of the log returned an admin, and no call
    raised. *)
Definition caller_always_admin (t : list event) : Prop :=
  (forall cu, In (Called getCurrentUser (Returns cu)) t ->
              exists ca, field "admin" cu = Some ca /\ truthy ca = true) /\
  (forall c e, ~ In (Called c (Raises e)) t).

(** The user is pending approval. *)
Definition pending (user : value) : Prop :=
  exists st, field "status" user = Some st /\
             py_eq st (VStr "pending") = true.



End More.

(** ** Calls that a computation can make *)

(** [emits P p]: whatever the environment and the log so far, [p] only
    adds to the log, and every call it adds satisfies [P]. *)
Definition emits {A} (P : outcall -> Prop) (p : M A) : Prop :=
  forall E t, exists s,
    snd (p E t) = (t ++ s)%list /\
    forall c r, In (Called c r) s -> P c.

(** The elements that an iteration goes through, for a value that can be
    iterated. *)
Definition elements (v : value) : list value :=
  match v with
  | VList l => l
  | VDict d => map (fun kv => VStr (fst kv)) d
  | VStr s => chars s
  | _ => []
  end.

(** [u.get('groups', [])], iterated. *)
Definition groups_of (u : value) : list value :=
  elements (match field "groups" u with Some g => g | None => VList [] end).

(** [(reviewer if reviewer else {}).get('_id')]. *)
Definition id_or_none (reviewer : value) : value :=
  if truthy reviewer
  then match field "_id" reviewer with Some i => i | None => VNone end
  else VNone.

(** The calls that [getUserApplets] makes once it has the user whose
    groups it goes through, the lower-cased role and the reviewer: it
    finds applets by the groups of [user], and everything that it reads it
    reads as [reviewer]. *)
Definition reads_as (role : string) (user reviewer : value) (c : outcall)
  : Prop :=
  match c with
  | Applet_find q =>
      exists g, In g (groups_of user) /\ q = User.applet_query role g
  | Collection_find q => q = VDict [("name", VStr "Assignments")]
  | Folder_childFolders parentType _ u force =>
      u = reviewer /\
      ((parentType = "collection" /\ force = false) \/
       (parentType = "folder" /\ force = true))
  | Folder_find q =>
      q = VDict [("parentId", id_or_none reviewer);
                 ("baseParentType", VStr "user");
                 ("name", VStr "Assignments")]
  | Folder_load _ level u force => level = NONE /\ u = reviewer /\ force = true
  | Applet_load _ level u => level = READ /\ u = reviewer
  | formatLdObject _ type u dropErrors =>
      type = "applet" /\ u = reviewer /\ dropErrors = true
  | _ => False
  end.

(** The calls that change something: a document, a token, a group, the
    session of the request, or that send mail. *)
Definition no_write (c : outcall) : bool :=
  match c with
  | User_save _ | User_setPassword _ _ | User_remove _
  | User_createUser _ _ _ _ _ _ _ | User_setAccessList _ _ _
  | User_initializeOtp _ | User_sendApprovedEmail _
  | User_sendVerificationEmail _ | Token_remove _ | Token_createToken _ _ _
  | Group_createGroup _ _ _ | Group_addUser _ _ _ | sendEmail _ _ _
  | setCurrentUser _ | sendAuthTokenCookie _ | deleteAuthTokenCookie => false
  | _ => true
  end.

(** The [GET] routes other than the two that open a session
    ([GET authentication] and [GET password/temporary/:id]). *)
Definition plain_get (r : request) : bool :=
  match r with
  | GET_users _ _ _ _ | GET_me | GET_user _ | GET_access _
  | GET_applets _ _ _ | GET_details _ | GET_invites | GET_users_details
  | GET_mongo_search _ => true
  | _ => false
  end.

(** [applet.get('_id')]. *)
Definition id_of (applet : value) : value :=
  match field "_id" applet with Some i => i | None => VNone end.

Definition is_dict (v : value) : bool :=
  match v with VDict _ => true | _ => false end.

(** No two documents of the list have equal [_id]s. *)
Fixpoint distinct_ids (l : list value) : Prop :=
  match l with
  | [] => True
  | x :: l' =>
      (forall y, In y l' -> py_eq (id_of x) (id_of y) = false) /\
      distinct_ids l'
  end.

(** [v.get(k, default)] as a function: [None] where Python raises. *)
Definition get_or (v : value) (k : string) (default : value) : option value :=
  match v with
  | VDict d => Some (match lookup k d with Some x => x | None => default end)
  | _ => None
  end.

(** [applet.get('meta', {}).get('applet', {}).get('deleted', default)]. *)
Definition deleted_of (applet default : value) : option value :=
  match get_or applet "meta" (VDict []) with
  | Some m =>
      match get_or m "applet" (VDict []) with
      | Some a => get_or a "deleted" default
      | None => None
      end
  | None => None
  end.

(** The applet is not marked as deleted. *)
Definition not_deleted (applet default : value) : Prop :=
  exists d, deleted_of applet default = Some d /\ truthy d = false.

(** The dictionary that lines 253-258 build: no key equals an earlier one,
    and every entry is a document under a hashable key equal to its
    [_id]. *)
Fixpoint distinct_keys (d : list (value * value)) : Prop :=
  match d with
  | [] => True
  | (k, _) :: d' =>
      (forall k', In k' (map fst d') -> py_eq k k' = false) /\
      distinct_keys d'
  end.

Definition keyed_by_id (d : list (value * value)) : Prop :=
  distinct_keys d /\
  forall k v, In (k, v) d ->
    hashable k = true /\ is_dict v = true /\
    hashable (id_of v) = true /\ py_eq k (id_of v) = true.

(** Lines 253-258 as a function of the applets and of the dictionary built
    so far: [None] where the comprehension raises a [TypeError]. *)
Fixpoint index_by (applets : list value) (d : list (value * value))
  : option (list (value * value)) :=
  match applets with
  | [] => Some d
  | applet :: rest =>
      if is_dict applet
      then if hashable (id_of applet)
           then index_by rest (User.kv_set (id_of applet) applet d)
           else None
      else index_by rest d
  end.

(** [assignment['meta']['applet']['@id']], when the assignment has it. *)
Definition applet_ref (assignment : value) : option value :=
  match field "meta" assignment with
  | Some meta =>
      match field "applet" meta with
      | Some applet => field "@id" applet
      | None => None
      end
  | None => None
  end.

(** The applet [a] was loaded, in the part [s] of the log, as the applet
    of [assignment] with the rights of [reviewer], and it is not marked as
    deleted. *)
Definition loaded_from (reviewer assignment a : value) (s : list event)
  : Prop :=
  (exists i, applet_ref assignment = Some i /\
             In (Called (Applet_load i READ reviewer) (Returns a)) s) /\
  not_deleted a (VBool false).

(** [p] only adds to the log, and an applet that it yields was loaded
    from [assignment]. *)
Definition offers (reviewer assignment : value) (p : M (option value))
  : Prop :=
  forall E t,
    post p E t
      (fun o t' =>
         exists s, t' = (t ++ s)%list /\
                   forall a, o = Ok (Some a) ->
                             loaded_from reviewer assignment a s).

(** The values with which the calls of a log returned, in order. *)
Fixpoint replies (s : list event) : list value :=
  match s with
  | [] => []
  | Called _ (Returns v) :: s' => v :: replies s'
  | _ :: s' => replies s'
  end.

(** Lines 265-278: the one call that the formatting makes for an applet. *)
Definition formats (reviewer : value) (applets : list value) (c : outcall)
  : Prop :=
  exists a,
    c = formatLdObject a "applet" reviewer true /\
    In a applets /\ is_none a = false /\ not_deleted a VNone.

(** The exception [e] ended the part [s] of the log: the last call raised
    it, or it is the [AttributeError] of reading the deleted mark of
    something that is not a document. *)
Definition ended_by (e : exn) (s : list event) : Prop :=
  (exists s' c, s = (s' ++ [Called c (Raises e)])%list) \/ e = attribute_error.

(** Lines 265-278: what the comprehension does with one applet. *)
Definition format_one (reviewer applet : value) : M (option value) :=
  if is_none applet then ret None else
  d <- User.deleted_flag applet VNone ;;
  if truthy d then ret None else
  r <- call (formatLdObject applet "applet" reviewer true) ;;
  ret (Some r).

(** Lines 218-226: the folder [f] is a [userID] folder that names the user
    with id [i]. *)
Definition names_user (f i : value) : Prop :=
  exists ln m u,
    field "lowerName" f = Some ln /\ py_eq ln (VStr "userid") = true /\
    field "meta" f = Some m /\ field "user" m = Some u /\
    field "@id" u = Some i.

(** Lines 199-228: in the part [s] of the log, the folder of the member
    [assignedUser] was loaded and one of its child folders names [user]. *)
Definition listed_member (E : env) (user reviewer assignedUser : value)
  (s : list event) : Prop :=
  exists uid aid roles parent fs f i,
    field "_id" user = Some uid /\
    field "@id" assignedUser = Some aid /\
    field "roles" assignedUser = Some roles /\ elements roles <> [] /\
    In (Called (Folder_load aid NONE reviewer true) (Returns parent)) s /\
    In (Called (Folder_childFolders "folder" parent reviewer true)
          (Returns fs)) s /\
    In f (elements fs) /\ names_user f i /\
    py_eq (VStr (str_of E uid)) i = true.

(** No two values of the list are equal. *)
Fixpoint pairwise_unequal (l : list value) : Prop :=
  match l with
  | [] => True
  | x :: l' =>
      (forall y, In y l' -> py_eq x y = false) /\ pairwise_unequal l'
  end.

(** * Properties *)

(** ** Rules for [post] *)

Section PostRules.

Context {A B : Type}.

Lemma post_ret (a : A) E t (Q : outcome A -> list event -> Prop) :
  Q (Ok a) t -> post (ret a) E t Q.
Proof. intro H; exact H. Qed.

Lemma post_raise (e : exn) E t (Q : outcome A -> list event -> Prop) :
  Q (Exc e) t -> post (raise e) E t Q.
Proof. intro H; exact H. Qed.

Lemma post_ask (f : env -> A) E t (Q : outcome A -> list event -> Prop) :
  Q (Ok (f E)) t -> post (ask f) E t Q.
Proof. intro H; exact H. Qed.

Lemma post_bind (p : M A) (f : A -> M B) E t
  (Q : outcome B -> list event -> Prop) :
  post p E t (fun o t' =>
                match o with
                | Ok a => post (f a) E t' Q
                | Exc e => Q (Exc e) t'
                end) ->
  post (bind p f) E t Q.
Proof.
  unfold post, bind. destruct (p E t) as [[a | e] t']; simpl; auto.
Qed.

Lemma post_try_except (p : M A) (h : exn -> M A) E t
  (Q : outcome A -> list event -> Prop) :
  post p E t (fun o t' =>
                match o with
                | Ok a => Q (Ok a) t'
                | Exc e => post (h e) E t' Q
                end) ->
  post (try_except p h) E t Q.
Proof.
  unfold post, try_except. destruct (p E t) as [[a | e] t']; simpl; auto.
Qed.

Lemma post_attempt (p : M A) E t
  (Q : outcome (A + exn) -> list event -> Prop) :
  post p E t (fun o t' =>
                match o with
                | Ok a => Q (Ok (inl a)) t'
                | Exc e => Q (Ok (inr e)) t'
                end) ->
  post (attempt p) E t Q.
Proof.
  unfold post, attempt. destruct (p E t) as [[a | e] t']; simpl; auto.
Qed.

Lemma post_mono (p : M A) E t (Q Q' : outcome A -> list event -> Prop) :
  (forall o t', Q o t' -> Q' o t') -> post p E t Q -> post p E t Q'.
Proof. unfold post; auto. Qed.


Lemma post_pyop (p : M A) E t (Q : outcome A -> list event -> Prop) :
  pyop p ->
  (forall a, p E t = (Ok a, t) -> Q (Ok a) t) ->
  (forall e, p E t = (Exc e, t) -> python_error e = true -> Q (Exc e) t) ->
  post p E t Q.
Proof.
  intros Hp Hok Hexc. unfold post.
  destruct (Hp E t) as [[a Ha] | [e [He Hpy]]].
  - rewrite Ha. simpl. auto.
  - rewrite He. simpl. auto.
Qed.

End PostRules.

Lemma post_call (c : outcall) E t (Q : outcome value -> list event -> Prop) :
  (forall v, oracle E t c = Returns v ->
             Q (Ok v) (t ++ [Called c (Returns v)])) ->
  (forall e, oracle E t c = Raises e ->
             Q (Exc e) (t ++ [Called c (Raises e)])) ->
  post (call c) E t Q.
Proof.
  unfold post, call. intros Hv He.
  destruct (oracle E t c) eqn:Hc; simpl; auto.
Qed.

Lemma post_print (p : printable) E t (Q : outcome unit -> list event -> Prop) :
  Q (Ok tt) (t ++ [Printed p]) -> post (print p) E t Q.
Proof. intro H; exact H. Qed.

(** ** The Python operations make no call *)

Ltac pyop_cases :=
  intros E t; unfold ret, raise;
  repeat match goal with
         | |- context [match ?x with _ => _ end] => destruct x
         end;
  solve [ left; eexists; reflexivity
        | right; eexists; split; reflexivity ].

Lemma pyop_ret {A} (a : A) : pyop (ret a).
Proof. intros E t; left; eexists; reflexivity. Qed.

Lemma pyop_ask {A} (f : env -> A) : pyop (ask f).
Proof. intros E t; left; eexists; reflexivity. Qed.

Lemma pyop_py_in x c : pyop (py_in x c).
Proof. unfold py_in. pyop_cases. Qed.

Lemma pyop_py_get v k d : pyop (py_get v k d).
Proof. unfold py_get. pyop_cases. Qed.

Lemma pyop_getitem v k : pyop (getitem v k).
Proof. unfold getitem. pyop_cases. Qed.

Lemma pyop_setitem v k x : pyop (setitem v k x).
Proof. unfold setitem. pyop_cases. Qed.

Lemma pyop_delitem v k : pyop (delitem v k).
Proof. unfold delitem. pyop_cases. Qed.

Lemma pyop_py_iter v : pyop (py_iter v).
Proof. unfold py_iter. pyop_cases. Qed.

Lemma pyop_unpack2 v : pyop (unpack2 v).
Proof. unfold unpack2. pyop_cases. Qed.

Lemma pyop_unpack3 v : pyop (unpack3 v).
Proof. unfold unpack3. pyop_cases. Qed.

Lemma pyop_py_str v : pyop (py_str v).
Proof. apply pyop_ask. Qed.

Lemma pyop_lower s : pyop (lower s).
Proof. apply pyop_ask. Qed.

Lemma pyop_not_after a b : pyop (not_after a b).
Proof. unfold not_after. pyop_cases. Qed.

Lemma pyop_getitem_v d k : pyop (ResourceExt.getitem_v d k).
Proof. unfold ResourceExt.getitem_v, getitem. pyop_cases. Qed.

Lemma pyop_starts_basic v : pyop (User.starts_basic v).
Proof. unfold User.starts_basic. pyop_cases. Qed.

Lemma pyop_header_tail v : pyop (User.header_tail v).
Proof. unfold User.header_tail. pyop_cases. Qed.

Create HintDb pyops.

#[local] Hint Resolve pyop_ret pyop_ask pyop_py_in pyop_py_get pyop_getitem
  pyop_setitem pyop_delitem pyop_py_iter pyop_unpack2 pyop_unpack3
  pyop_py_str pyop_lower pyop_not_after pyop_getitem_v pyop_starts_basic
  pyop_header_tail : pyops.

(** ** Documents *)

Lemma getitem_ok v k E t x t' :
  getitem v k E t = (Ok x, t') -> field k v = Some x.
Proof.
  unfold getitem, field. destruct v; try discriminate.
  destruct (lookup k d); unfold ret, raise; intro H; inversion H; reflexivity.
Qed.

Lemma getitem_exc v k E t e t' :
  getitem v k E t = (Exc e, t') -> field k v = None.
Proof.
  unfold getitem, field. destruct v; try reflexivity.
  destruct (lookup k d); unfold ret, raise; intro H; inversion H; reflexivity.
Qed.

Lemma py_get_ok v k d E t x t' :
  py_get v k d E t = (Ok x, t') ->
  x = match field k v with Some y => y | None => d end.
Proof.
  unfold py_get, field. destruct v; try discriminate.
  unfold ret; intro H; inversion H; reflexivity.
Qed.

Lemma py_get_exc v k d E t e t' :
  py_get v k d E t = (Exc e, t') -> field k v = None.
Proof.
  unfold py_get, field. destruct v; try reflexivity.
  unfold ret; intro H; inversion H.
Qed.

Lemma lookup_dict_set_same k v d : lookup k (dict_set k v d) = Some v.
Proof.
  induction d as [ | [k' v'] d IH]; simpl.
  - rewrite String.eqb_refl. reflexivity.
  - destruct (String.eqb k k') eqn:Hk; simpl.
    + rewrite String.eqb_refl. reflexivity.
    + rewrite Hk. exact IH.
Qed.

Lemma lookup_dict_set_other k k' v d :
  String.eqb k' k = false -> lookup k' (dict_set k v d) = lookup k' d.
Proof.
  intro Hne. induction d as [ | [k0 v0] d IH]; simpl.
  - rewrite Hne. reflexivity.
  - destruct (String.eqb k k0) eqn:Hk; simpl.
    + apply String.eqb_eq in Hk. subst k0. rewrite Hne. reflexivity.
    + destruct (String.eqb k' k0); [reflexivity | exact IH].
Qed.


Lemma lookup_dict_del_other k k' d :
  String.eqb k' k = false -> lookup k' (dict_del k d) = lookup k' d.
Proof.
  intro Hne. induction d as [ | [k0 v0] d IH]; simpl.
  - reflexivity.
  - destruct (String.eqb k k0) eqn:Hk; simpl.
    + apply String.eqb_eq in Hk. subst k0. rewrite Hne. exact IH.
    + destruct (String.eqb k' k0); [reflexivity | exact IH].
Qed.

Lemma setitem_ok v k x E t y t' :
  setitem v k x E t = (Ok y, t') ->
  exists d, v = VDict d /\ y = VDict (dict_set k x d).
Proof.
  unfold setitem. destruct v; try discriminate.
  unfold ret. intro H. inversion H. eauto.
Qed.

Lemma usable_truthy v : negb (is_none v) && truthy v = truthy v.
Proof. destruct v; reflexivity. Qed.

Lemma py_in_dict k d E t b t' :
  py_in (VStr k) (VDict d) E t = (Ok b, t') -> b = has_key k d.
Proof. unfold py_in, ret. simpl. intro H. inversion H. reflexivity. Qed.



(** The facts that a finished run leaves about the documents it read. *)
Ltac norm_hyps :=
  repeat match goal with
         | H : negb _ = true |- _ => apply negb_true_iff in H
         | H : negb _ = false |- _ => apply negb_false_iff in H
         | H : getitem _ _ _ _ = (Ok _, _) |- _ => apply getitem_ok in H
         | H : getitem _ _ _ _ = (Exc _, _) |- _ => apply getitem_exc in H
         | H : py_get _ _ _ _ _ = (Ok _, _) |- _ => apply py_get_ok in H
         | H : py_get _ _ _ _ _ = (Exc _, _) |- _ => apply py_get_exc in H
         | H : setitem _ _ _ _ _ = (Ok _, _) |- _ =>
             apply setitem_ok in H; destruct H as (? & ? & ?); subst
         | H : py_in (VStr _) (VDict _) _ _ = (Ok _, _) |- _ =>
             apply py_in_dict in H
         | H : (_ =? _)%string = true |- _ => apply String.eqb_eq in H
         | H : (_ =? _)%string = false |- _ => apply String.eqb_neq in H
         end.

(** Membership in an explicit log. *)
Ltac in_log :=
  repeat match goal with
         | H : In _ [] |- _ => destruct H
         | H : In _ (_ :: _) |- _ =>
             destruct H as [H | H];
             [ try discriminate H; try (inversion H; subst; clear H) | ]
         end.

Ltac find_in := simpl; repeat first [ left; reflexivity | right ].


Ltac known_field :=
  match goal with
  | H : getitem ?v ?k _ _ = (Ok _, _), F : field ?k ?v = Some _ |- _ =>
      apply getitem_ok in H; rewrite F in H; inversion H; subst; clear H
  | H : getitem ?v ?k _ _ = (Exc _, _), F : field ?k ?v = Some _ |- _ =>
      apply getitem_exc in H; rewrite F in H; discriminate H
  | H : getitem ?v ?k _ _ = (Exc _, _), F : field ?k ?v <> None |- _ =>
      exfalso; apply F; exact (getitem_exc _ _ _ _ _ _ H)
  | H : py_get ?v ?k _ _ _ = (Ok _, _), F : field ?k ?v = Some _ |- _ =>
      apply py_get_ok in H; rewrite F in H; subst
  | H : py_get ?v ?k _ _ _ = (Exc _, _), F : field ?k ?v = Some _ |- _ =>
      apply py_get_exc in H; rewrite F in H; discriminate H
  end.

(** What is already known about a reply or a test settles a case. *)
Ltac known_reply :=
  match goal with
  | H1 : oracle ?E ?t ?c = _, H2 : oracle ?E ?t ?c = _ |- _ =>
      rewrite H1 in H2; first [ discriminate H2 | inversion H2; subst; clear H2 ]
  end.

Ltac known_test Hb :=
  repeat match goal with
         | H : ?x = ?y |- _ =>
             lazymatch H with Hb => fail | _ => idtac end;
             lazymatch y with
             | true => idtac | false => idtac
             | Some _ => idtac | None => idtac
             end;
             match type of Hb with context [x] => rewrite H in Hb end
         end;
  simpl in Hb; discriminate Hb.

Ltac flip_negb Hb :=
  lazymatch type of Hb with
  | negb _ = true => apply negb_true_iff in Hb
  | negb _ = false => apply negb_false_iff in Hb
  end.

(** One step of symbolic execution of a goal [post p E t Q]: a call gives
    the two cases of its reply, a Python operation the two cases of its
    result, a test its two branches. *)
Ltac post_step :=
  lazymatch goal with
  | |- post (bind _ _) _ _ _ => apply post_bind
  | |- post (call _) _ _ _ =>
      apply post_call; [intros ? ? | intros ? ?]; try known_reply
  | |- post (ret _) _ _ _ => apply post_ret
  | |- post (raise _) _ _ _ => apply post_raise
  | |- post (ask _) _ _ _ => apply post_ask
  | |- post (py_str _) _ _ _ => apply post_ask
  | |- post (lower _) _ _ _ => apply post_ask
  | |- post (print _) _ _ _ => apply post_print
  | |- post (try_except _ _) _ _ _ => apply post_try_except
  | |- post (try_except_class _ _ _) _ _ _ =>
      unfold try_except_class at 1; apply post_try_except
  | |- post (attempt _) _ _ _ => apply post_attempt
  | |- post (if ?b then _ else _) _ _ _ =>
      first [ match goal with H : b = _ |- _ => rewrite H end
            | let Hb := fresh "Hb" in
              destruct b eqn:Hb; try known_test Hb; try flip_negb Hb ]
  | |- post (match ?x with _ => _ end) _ _ _ =>
      first [ match goal with H : x = _ |- _ => rewrite H end
            | let Hb := fresh "Hb" in destruct x eqn:Hb; try known_test Hb ]
  | |- post (getitem (VDict _) _) _ _ _ => unfold getitem at 1
  | |- post (py_get (VDict _) _ _) _ _ _ => unfold py_get at 1
  | |- post (setitem (VDict _) _ _) _ _ _ => unfold setitem at 1
  | |- post (delitem (VDict _) _) _ _ _ => unfold delitem at 1
  | |- post (py_in (VStr _) (VDict _)) _ _ _ => unfold py_in at 1, hashable
  | |- post (py_iter (VList _)) _ _ _ => unfold py_iter at 1
  | |- post (unpack2 (VList _)) _ _ _ => unfold unpack2 at 1
  | |- post (unpack3 (VList _)) _ _ _ => unfold unpack3 at 1
  | |- post (not_after (VTime _) (VTime _)) _ _ _ => unfold not_after at 1
  | |- post _ _ _ _ =>
      apply post_pyop;
      [ solve [auto with pyops] | intros ? ? | intros ? ? ? ];
      try known_field
  end; cbv beta iota; cbn [app].

Ltac post_steps := repeat post_step.

(** ** Arithmetic of the expiry test *)

Lemma sub_nonpos_leb (x y : Z) : (x - y <=? 0) = (x <=? y).
Proof.
  destruct (Z.leb_spec (x - y) 0), (Z.leb_spec x y); try reflexivity; lia.
Qed.

(** ** Logs *)

Lemma calls_within_nil P : calls_within P [].
Proof. intros c r []. Qed.

Lemma calls_within_snoc P t c r :
  calls_within P t -> P c = true -> calls_within P (t ++ [Called c r]).
Proof.
  intros Ht Hc c' r' Hin. apply in_app_or in Hin as [Hin | [Heq | []]].
  - eauto.
  - inversion Heq; subst; exact Hc.
Qed.

Lemma calls_within_print P t p :
  calls_within P t -> calls_within P (t ++ [Printed p]).
Proof.
  intros Ht c' r' Hin. apply in_app_or in Hin as [Hin | [Heq | []]].
  - eauto.
  - discriminate.
Qed.

Lemma calls_within_cons P t c r :
  P c = true -> calls_within P t -> calls_within P (Called c r :: t).
Proof.
  intros Hc Ht c' r' [Heq | Hin].
  - inversion Heq; subst; exact Hc.
  - eauto.
Qed.

Lemma calls_within_cons_print P t p :
  calls_within P t -> calls_within P (Printed p :: t).
Proof.
  intros Ht c' r' [Heq | Hin].
  - discriminate.
  - eauto.
Qed.

Ltac within :=
  repeat first [ apply calls_within_nil
               | assumption
               | apply calls_within_cons; [ reflexivity | ]
               | apply calls_within_cons_print
               | apply calls_within_snoc; [ | reflexivity ]
               | apply calls_within_print ].

(** ** generateTemporaryPassword *)

(** C5.  For a user found by the (lower-cased) email,
    [generateTemporaryPassword] calls [Token().createToken] right after the
    lookup, for that user, with [days=1] and the scope
    [TEMPORARY_USER_AUTH]; all it ever calls is the lookup, the token
    creation, the mail rendering and sending and the settings, so it never
    saves the user nor sets a password; and when every call returns and both
    the user and the token have an [_id], it ends with the mail sent to the
    given address and the message as its result. *)
Theorem generateTemporaryPassword_token_mail_frame :
  forall (E : env) (email : string) (user : value),
    oracle E [] (User_findOne (VDict [("email", VStr (str_lower E email))]) [])
      = Returns user ->
    truthy user = true ->
    post (User.generateTemporaryPassword email) E []
      (fun o t =>
         (exists r, nth_error t 1 =
                      Some (Called (Token_createToken user 1
                                      TEMPORARY_USER_AUTH) r)) /\
         calls_within temp_password_calls t /\
         (forall c r, In (Called c r) t -> writes_password c = false) /\
         (forall token,
             nth_error t 1 =
               Some (Called (Token_createToken user 1 TEMPORARY_USER_AUTH)
                       (Returns token)) ->
             field "_id" user <> None ->
             field "_id" token <> None ->
             quiet t = true ->
             o = Ok (User.message "Sent temporary access email.") /\
             exists subject html r,
               In (Called (sendEmail email subject html) (Returns r)) t)).
Proof.
  intros E email user Hfind Htruthy.
  assert (Hframe : forall t, calls_within temp_password_calls t ->
                     forall c r, In (Called c r) t -> writes_password c = false).
  { intros t Ht c r Hin. specialize (Ht c r Hin).
    destruct c; simpl in *; congruence. }
  unfold User.generateTemporaryPassword.
  post_steps.
  all: cbn [nth_error].
  all: split; [eexists; reflexivity | ].
  all: split; [within | ].
  all: split; [apply Hframe; within | ].
  all: intros token Htok Hu Ht Hq; inversion Htok; subst.
  all: try discriminate Hq.
  all: try known_field.
  split; [reflexivity | ].
  do 3 eexists. do 5 right. left. reflexivity.
Qed.

Lemma generateTemporaryPassword_token_mail_frame_witness :
  oracle (Demo.world Demo.temporary_flow) []
    (User_findOne (VDict [("email", VStr "alice@example.org")]) [])
    = Returns Demo.alice /\
  truthy Demo.alice = true /\
  post (User.generateTemporaryPassword "alice@example.org")
    (Demo.world Demo.temporary_flow) []
    (fun o t =>
       (exists r, nth_error t 1 =
                    Some (Called (Token_createToken Demo.alice 1
                                    TEMPORARY_USER_AUTH) r)) /\
       calls_within temp_password_calls t /\
       (forall c r, In (Called c r) t -> writes_password c = false) /\
       (forall token,
           nth_error t 1 =
             Some (Called (Token_createToken Demo.alice 1 TEMPORARY_USER_AUTH)
                     (Returns token)) ->
           field "_id" Demo.alice <> None ->
           field "_id" token <> None ->
           quiet t = true ->
           o = Ok (User.message "Sent temporary access email.") /\
           exists subject html r,
             In (Called (sendEmail "alice@example.org" subject html)
                   (Returns r)) t)).
Proof.
  split; [reflexivity | split; [reflexivity | ]].
  apply (generateTemporaryPassword_token_mail_frame
           (Demo.world Demo.temporary_flow) "alice@example.org" Demo.alice);
    reflexivity.
Defined.

(** ** checkTemporaryPassword *)

(** C6.  Once the token is loaded, the clock read and the scope asked for,
    [checkTemporaryPassword] raises its [AccessException] (and does nothing
    more) exactly when the token's [userId] differs from the user's [_id],
    or the expiry is not strictly after the current time, or the token lacks
    the scope [TEMPORARY_USER_AUTH].  Otherwise it goes on to send an auth
    token cookie and, when that and the filtering return, answers with the
    auth token marked [temporary: True].  In no case does it remove a
    token. *)
Theorem checkTemporaryPassword_refuses_iff :
  forall (E : env) (user : value) (tok : string)
         (token : value) (expires now : Z) (hasScope u_id : value),
    let load := Token_load tok (Some user) (Some ADMIN) false false true in
    let t3 := [Called load (Returns token);
               Called utcnow (Returns (VTime now));
               Called (Token_hasScope token TEMPORARY_USER_AUTH)
                 (Returns hasScope)] in
    oracle E [] load = Returns token ->
    field "expires" token = Some (VTime expires) ->
    oracle E [Called load (Returns token)] utcnow = Returns (VTime now) ->
    oracle E [Called load (Returns token); Called utcnow (Returns (VTime now))]
      (Token_hasScope token TEMPORARY_USER_AUTH) = Returns hasScope ->
    field "_id" user = Some u_id ->
    post (User.checkTemporaryPassword user tok) E []
      (fun o t =>
         ((o = Exc (User.access_exn
                      "The token does not grant temporary access to this user.")
           /\ t = t3)
          <-> temporary_access_refused token u_id expires now hasScope = true)
         /\
         (temporary_access_refused token u_id expires now hasScope = false ->
          (exists r, nth_error t 3 = Some (Called (sendAuthTokenCookie user) r))
          /\
          forall authToken filtered tid exp,
            oracle E t3 (sendAuthTokenCookie user) = Returns authToken ->
            oracle E (t3 ++ [Called (sendAuthTokenCookie user)
                               (Returns authToken)])
              (User_filter user user) = Returns filtered ->
            field "_id" authToken = Some tid ->
            field "expires" authToken = Some exp ->
            o = Ok (VDict [("user", filtered);
                           ("authToken",
                            VDict [("token", tid); ("expires", exp);
                                   ("temporary", VBool true)]);
                           ("message",
                            VStr "Temporary access token is valid.")]))
         /\
         calls_within not_token_remove t).
Proof.
  intros E user tok token expires now hasScope u_id load t3
         Hload Hexp Hnow Hscope Hid.
  subst load t3.
  destruct token as [ | | | | | | | d]; try discriminate Hexp.
  cbn [field] in Hexp.
  unfold User.checkTemporaryPassword, User.token_invalid.
  post_steps.
  all: rewrite sub_nonpos_leb in Hb.
  all: unfold temporary_access_refused; cbn [field].
  all: rewrite Hb.
  all: cbn [nth_error].
  all: split; [ split; [ intros [Ho Ht]; try discriminate Ho;
                         try discriminate Ht; reflexivity
                       | intro Hr; try discriminate Hr; split; reflexivity ]
              | ].
  all: split; [ | within ].
  all: intro Hr; try discriminate Hr.
  all: split; [ eexists; reflexivity | ].
  all: intros authToken filtered tid exp Hsend Hfilter Htid Hexp';
       repeat known_reply; repeat known_field; try reflexivity.
Qed.

Lemma checkTemporaryPassword_refuses_iff_witness :
  post (User.checkTemporaryPassword Demo.alice "tok-1")
    (Demo.world Demo.temporary_flow) []
    (fun o t =>
       ((o = Exc (User.access_exn
                    "The token does not grant temporary access to this user.")
         /\ t = [Called (Token_load "tok-1" (Some Demo.alice) (Some ADMIN)
                           false false true) (Returns Demo.temp_token);
                 Called utcnow (Returns (VTime 1000));
                 Called (Token_hasScope Demo.temp_token TEMPORARY_USER_AUTH)
                   (Returns (VBool true))])
        <-> temporary_access_refused Demo.temp_token (VId "a11ce") 2000 1000
              (VBool true) = true)
       /\
       (temporary_access_refused Demo.temp_token (VId "a11ce") 2000 1000
          (VBool true) = false ->
        (exists r, nth_error t 3 =
                     Some (Called (sendAuthTokenCookie Demo.alice) r))
        /\
        forall authToken filtered tid exp,
          oracle (Demo.world Demo.temporary_flow)
            [Called (Token_load "tok-1" (Some Demo.alice) (Some ADMIN)
                       false false true) (Returns Demo.temp_token);
             Called utcnow (Returns (VTime 1000));
             Called (Token_hasScope Demo.temp_token TEMPORARY_USER_AUTH)
               (Returns (VBool true))]
            (sendAuthTokenCookie Demo.alice) = Returns authToken ->
          oracle (Demo.world Demo.temporary_flow)
            ([Called (Token_load "tok-1" (Some Demo.alice) (Some ADMIN)
                        false false true) (Returns Demo.temp_token);
              Called utcnow (Returns (VTime 1000));
              Called (Token_hasScope Demo.temp_token TEMPORARY_USER_AUTH)
                (Returns (VBool true))]
             ++ [Called (sendAuthTokenCookie Demo.alice)
                   (Returns authToken)])
            (User_filter Demo.alice Demo.alice) = Returns filtered ->
          field "_id" authToken = Some tid ->
          field "expires" authToken = Some exp ->
          o = Ok (VDict [("user", filtered);
                         ("authToken",
                          VDict [("token", tid); ("expires", exp);
                                 ("temporary", VBool true)]);
                         ("message",
                          VStr "Temporary access token is valid.")]))
       /\
       calls_within not_token_remove t).
Proof.
  exact (checkTemporaryPassword_refuses_iff
           (Demo.world Demo.temporary_flow) Demo.alice "tok-1"
           Demo.temp_token 2000 1000 (VBool true) (VId "a11ce")
           eq_refl eq_refl eq_refl eq_refl eq_refl).
Defined.

(** The demonstration run: alice presents her unexpired temporary token and
    gets an auth token marked temporary; the temporary token is not
    removed. *)
Example checkTemporaryPassword_demo :
  run (User.checkTemporaryPassword Demo.alice "tok-1")
      (Demo.world Demo.temporary_flow)
  = (Ok (VDict [("user", Demo.alice);
                ("authToken",
                 VDict [("token", VStr "tok-2"); ("expires", VTime 9000);
                        ("temporary", VBool true)]);
                ("message", VStr "Temporary access token is valid.")]),
     [Called (Token_load "tok-1" (Some Demo.alice) (Some ADMIN)
                false false true) (Returns Demo.temp_token);
      Called utcnow (Returns (VTime 1000));
      Called (Token_hasScope Demo.temp_token TEMPORARY_USER_AUTH)
        (Returns (VBool true));
      Called (sendAuthTokenCookie Demo.alice) (Returns Demo.auth_token);
      Called (User_filter Demo.alice Demo.alice) (Returns Demo.alice)]).
Proof. reflexivity. Qed.

(** ** changePassword *)





(** The demonstration run: alice has no password of her own and presents
    her temporary token as [old]; the new password is set and the token is
    removed. *)
Example changePassword_demo :
  run (User.changePassword "tok-1" "new-secret")
      (Demo.world Demo.temporary_flow)
  = (Ok (User.message "Password changed."),
     [Called getCurrentUser (Returns Demo.alice);
      Called (User_hasPassword Demo.alice) (Returns VNone);
      Called (Token_load "tok-1" None None true false false)
        (Returns Demo.temp_token);
      Called (Token_hasScope Demo.temp_token TEMPORARY_USER_AUTH)
        (Returns (VBool true));
      Called (User_setPassword Demo.alice "new-secret") (Returns VNone);
      Called (Token_remove Demo.temp_token) (Returns VNone)]).
Proof. reflexivity. Qed.

(** ** The OTP endpoints *)


(** The demonstration run of [finalizeOtp]: the header carries a code, the
    user has initialized OTP, the model verifies the code; the user is
    saved with [otp.enabled] set. *)
Example finalizeOtp_demo :
  run (User.finalizeOtp Demo.carol) (Demo.world Demo.otp_flow)
  = (Ok VNone,
     [Called (request_header "Girder-OTP") (Returns (VStr "123456"));
      Called (User_hasOtpEnabled Demo.carol) (Returns (VBool false));
      Called (User_verifyOtp Demo.carol_enabled (VStr "123456"))
        (Returns VNone);
      Called (User_save Demo.carol_enabled) (Returns Demo.carol_enabled)]).
Proof. reflexivity. Qed.

(** ** createUser *)

(** C10.  Whenever [createUser] returns, the user it returns is the one that
    the model created (with, at most, an [authToken] field added), and the
    handler has added that user with level [READ] to a group: the group that
    [findOne({'name': 'New Users'})] found, or, when that found nothing, the
    group it created with the name "New Users", [public=False], and as
    creator the first admin by ascending creation date. *)
Theorem createUser_joins_new_users :
  forall (E : env) (login email : string) (firstName : option string)
         (lastName password : string) (admin : bool),
    post (User.createUser login email firstName lastName password admin) E []
      (fun o t =>
         forall user, o = Ok user ->
           exists created fn adm currentUser found group joined,
             In (Called (User_createUser login password email fn lastName adm
                           currentUser) (Returns created)) t /\
             (forall k, String.eqb k "authToken" = false ->
                        field k user = field k created) /\
             In (Called (Group_findOne (VDict [("name", VStr "New Users")]))
                   (Returns found)) t /\
             In (Called (Group_addUser group user READ) (Returns joined)) t /\
             ((truthy found = true /\ group = found) \/
              (truthy found = false /\
               exists creator,
                 In (Called (User_findOne (VDict [("admin", VBool true)])
                               [("created", ASCENDING)]) (Returns creator)) t
                 /\
                 In (Called (Group_createGroup "New Users" creator false)
                       (Returns group)) t))).
Proof.
  intros E login email firstName lastName password admin.
  unfold User.createUser, User.registration_gate, User.join_new_users.
  post_steps.
  all: intros user Hu; try discriminate Hu; inversion Hu; subst; clear Hu.
  all: norm_hyps.
  all: repeat match goal with
              | H : negb (is_none _) && truthy _ = _ |- _ =>
                  rewrite usable_truthy in H
              end.
  all: do 7 eexists.
  all: split; [ find_in | ].
  all: split;
    [ intros k Hk;
      first [ reflexivity
            | cbn [field]; apply lookup_dict_set_other; exact Hk ] | ].
  all: split; [ find_in | ].
  all: split; [ find_in | ].
  all: first [ left; split; [ eassumption | reflexivity ]
             | right; split; [ eassumption | eexists; split; find_in ] ].
Qed.

(** The demonstration run of [createUser]: an anonymous visitor registers
    on an open instance that has no "New Users" group yet. *)
Example createUser_demo :
  run (User.createUser "dave" "dave@example.org" (Some "Dave") "Doe"
         "secret" false)
      (Demo.world Demo.registration)
  = (Ok Demo.dave_logged_in,
     [Called getCurrentUser (Returns VNone);
      Called (Setting_get REGISTRATION_POLICY) (Returns (VStr "open"));
      Called (User_createUser "dave" "secret" "dave@example.org" "Dave"
                "Doe" false VNone) (Returns Demo.dave);
      Called (User_canLogin Demo.dave) (Returns (VBool true));
      Called (setCurrentUser Demo.dave) (Returns VNone);
      Called (sendAuthTokenCookie Demo.dave) (Returns Demo.auth_token);
      Called (Group_findOne (VDict [("name", VStr "New Users")]))
        (Returns VNone);
      Called (User_findOne (VDict [("admin", VBool true)])
                [("created", ASCENDING)]) (Returns Demo.root);
      Called (Group_createGroup "New Users" Demo.root false)
        (Returns Demo.new_users);
      Called (Group_addUser Demo.new_users Demo.dave_logged_in READ)
        (Returns Demo.new_users);
      Called (Group_getFullAccessList Demo.new_users) (Returns (VDict []));
      Called (Group_getFullRequestList
                (VDict [("_id", VId "9e0"); ("name", VStr "New Users");
                        ("public", VBool false); ("access", VDict [])]))
        (Returns (VList []))]).
Proof. reflexivity. Qed.

(** ** updateUser *)

Ltac dict_simpl :=
  cbn [field];
  repeat first [ rewrite lookup_dict_set_same
               | rewrite lookup_dict_set_other by reflexivity ].

(** The demonstration run: alice, who is not an admin, asks to make bob an
    admin. *)
Example updateUser_demo :
  run (User.updateUser Demo.bob "Bob" "Builder" "bob@example.org"
         (Some true) None)
      (Demo.world Demo.alice_session)
  = (Exc (User.access_exn "Only admins may change admin status."),
     [Called getCurrentUser (Returns Demo.alice)]).
Proof. reflexivity. Qed.

(** C8, as stated, fails: alice, who is not an admin, asks to make bob an
    admin; no collaborator raises, and [updateUser] raises an
    [AccessException] instead of saving. *)
Lemma updateUser_refuses_non_admin :
  ~ saves_as_asked (Demo.world Demo.alice_session) Demo.bob
      "Bob" "Builder" "bob@example.org" (Some true) None.
Proof.
  unfold saves_as_asked, post.
  change (User.updateUser Demo.bob "Bob" "Builder" "bob@example.org"
            (Some true) None (Demo.world Demo.alice_session) [])
    with (run (User.updateUser Demo.bob "Bob" "Builder" "bob@example.org"
                 (Some true) None) (Demo.world Demo.alice_session)).
  rewrite updateUser_demo. cbn [fst snd]. intro H.
  assert (Hq : forall c e,
             ~ In (Called c (Raises e))
                 [Called getCurrentUser (Returns Demo.alice)]).
  { intros c e Hin. in_log. }
  destruct (H Hq) as (saved & r & Hin & _). in_log.
Qed.

Ltac show_admin :=
  match goal with
  | F : field "admin" ?cu = Some ?ca, T : truthy ?ca = true
    |- caller_is_admin _ =>
      exists cu, ca; split; [ find_in; fail | split; assumption ]
  end.

Ltac ask_callers :=
  match goal with
  | Hn : caller_not_admin _ |- _ =>
      repeat match goal with
             | H : oracle _ _ getCurrentUser = Returns ?v |- _ =>
                 let Hc := fresh "Hc" in
                 assert (Hc : exists ca, field "admin" v = Some ca /\
                                         truthy ca = false)
                   by (apply (proj1 Hn); find_in);
                 destruct Hc as (? & ? & ?); clear H
             end;
      clear Hn
  end.

Ltac no_raise_clash :=
  match goal with
  | Hn : caller_not_admin _ |- _ =>
      exfalso; eapply (proj2 Hn); find_in
  end.

Ltac not_admin_case :=
  intros; subst; try discriminate;
  try solve [ no_raise_clash ];
  ask_callers;
  repeat match goal with
         | H : _ \/ _ |- _ => destruct H
         | H : exists _, _ |- _ => destruct H
         | H : _ /\ _ |- _ => destruct H
         | H : Some _ = Some _ |- _ => inversion H; subst; clear H
         end;
  try discriminate; try congruence;
  (split; [ reflexivity | within ]).

(** C8, amended.  [updateUser] writes [firstName], [lastName] and [email]
    as given, but what it saves keeps the user's admin flag unless an admin
    caller asked for another one, and keeps the user's status unless an
    admin caller asked for another one; a caller who is not an admin and
    asks for an admin flag other than the user's gets the [AccessException]
    "Only admins may change admin status.", one who leaves the flag alone
    and asks for a status other than the current one gets "Only admins may
    change status.", and in both cases nothing is saved. *)
Theorem updateUser_guards :
  forall (E : env) (d : list (string * value))
         (firstName lastName email : string)
         (admin : option bool) (status : option string),
    let user := VDict d in
    post (User.updateUser user firstName lastName email admin status) E []
      (fun o t =>
         (forall saved r,
             In (Called (User_save saved) r) t ->
             field "firstName" saved = Some (VStr firstName) /\
             field "lastName" saved = Some (VStr lastName) /\
             field "email" saved = Some (VStr email) /\
             (field "admin" saved = field "admin" user \/
              (caller_is_admin t /\
               exists a, admin = Some a /\
                         field "admin" saved = Some (VBool a))) /\
             (field "status" saved = field "status" user \/
              (caller_is_admin t /\
               exists s, status = Some s /\
                         field "status" saved = Some (VStr s)))) /\
         (forall a ua,
             caller_not_admin t ->
             admin = Some a ->
             field "admin" user = Some ua ->
             is_bool ua a = false ->
             o = Exc (User.access_exn "Only admins may change admin status.")
             /\ calls_within not_save t) /\
         (forall s,
             caller_not_admin t ->
             (admin = None \/
              exists a ua, admin = Some a /\ field "admin" user = Some ua /\
                           is_bool ua a = true) ->
             status = Some s ->
             py_eq (VStr s) (current_status user) = false ->
             o = Exc (User.access_exn "Only admins may change status.")
             /\ calls_within not_save t)).
Proof.
  intros E d firstName lastName email admin status user. subst user.
  unfold User.updateUser, User.update_admin, User.update_status.
  post_steps.
  all: norm_hyps.
  all: unfold current_status.
  all: cbn [field] in *.
  all: repeat first [ rewrite lookup_dict_set_same in *
                    | rewrite lookup_dict_set_other in * by reflexivity ].
  all: split; [ | split ].
  (* what is saved *)
  all: try solve
         [ intros saved r Hin; in_log; dict_simpl; repeat split;
           try reflexivity;
           first [ left; reflexivity
                 | right; split;
                   [ show_admin | eexists; split; reflexivity ] ] ].
  (* a caller who is not an admin *)
  all: try solve [ not_admin_case ].
Qed.

(** ** mongoSearch *)




(** The demonstration run: an event handler has added "applet" to the
    allow-list, and the search for applets asks the model for the fields
    that the handler listed. *)
Example mongoSearch_demo :
  run (ResourceExt.mongoSearch Demo.search_params)
      (Demo.world Demo.search_flow)
  = (Ok (VList []),
     [Called (requireParams ["type"; "q"] Demo.search_params) (Returns VNone);
      Called (getPagingParameters Demo.search_params "name")
        (Returns (VList [VInt 50; VInt 0; VNone]));
      Called (events_trigger allowed_collections ResourceExt.allowed)
        (Returns (VDict [("collection", ResourceExt.core_fields);
                         ("folder", ResourceExt.core_fields);
                         ("item", ResourceExt.core_fields);
                         ("user", VList [VStr "_id"; VStr "firstName";
                                         VStr "lastName"; VStr "login"]);
                         ("applet", Demo.applet_fields)]));
      Called (json_loads (VStr "{}")) (Returns (VDict []));
      Called (ModelImporter_model (VStr "applet")) (Returns (VStr "applet"));
      Called (hasattr (VStr "applet") "filterSearchResults")
        (Returns (VBool false));
      Called (Model_find (VStr "applet") (VDict []) Demo.applet_fields
                (VInt 50) (VInt 0)) (Returns (VList []))]).
Proof. reflexivity. Qed.



(** ** getUserApplets *)

(** The user of line 148 is the current user whenever the [id] of the path
    resolved to a user: two requests for different users run alike. *)
Lemma getUserApplets_path_user_unused :
  forall (E : env) (u1 u2 : value) (role : string) (ids_only : bool)
         (t : list event),
    truthy u1 = true -> truthy u2 = true ->
    User.getUserApplets u1 role ids_only E t
    = User.getUserApplets u2 role ids_only E t.
Proof.
  intros E u1 u2 role ids_only t H1 H2.
  unfold User.getUserApplets. rewrite H1, H2. reflexivity.
Qed.

(** C1, at the failing input: bob is logged in and asks for the applets of
    alice, who is in group-a; the applet model is queried for bob's group-b
    and the answer is bob's applet. *)
Theorem getUserApplets_answers_for_current_user :
  run (User.getUserApplets Demo.alice "user" true)
      (Demo.world Demo.applets_flow)
  = (Ok (User.Body (VList [VId "applet-b"])),
     [Called getCurrentUser (Returns Demo.bob);
      Called getCurrentUser (Returns Demo.bob);
      Called (Applet_find (User.applet_query "user" (VId "group-b")))
        (Returns (VList [Demo.applet_b]));
      Called (Collection_find (VDict [("name", VStr "Assignments")]))
        (Returns (VList []));
      Called (Folder_find (VDict [("parentId", VId "b0b");
                                  ("baseParentType", VStr "user");
                                  ("name", VStr "Assignments")]))
        (Returns (VList []))]).
Proof. reflexivity. Qed.


(** ** How the handlers surface errors *)



Section Surfaces.

Context {A B : Type}.









End Surfaces.











(** * Further properties of the handlers *)

(** ** generateTemporaryPassword and sendVerificationEmail: unknown users *)

(** X1.  When the lookup by the lower-cased email finds nobody,
    [generateTemporaryPassword] raises the [RestException] "That email is
    not registered." and has done nothing but the lookup: no token is
    created and no mail is sent. *)
Theorem generateTemporaryPassword_unknown_email :
  forall (E : env) (email : string) (found : value),
    oracle E [] (User_findOne (VDict [("email", VStr (str_lower E email))]) [])
      = Returns found ->
    truthy found = false ->
    run (User.generateTemporaryPassword email) E
    = (Exc (User.rest "That email is not registered."),
       [Called (User_findOne (VDict [("email", VStr (str_lower E email))]) [])
          (Returns found)]).
Proof.
  intros E email found Hfind Hfalsy.
  unfold run, User.generateTemporaryPassword, bind, lower, ask, call.
  rewrite Hfind. cbn [app]. rewrite Hfalsy. reflexivity.
Qed.

Lemma generateTemporaryPassword_unknown_email_witness :
  run (User.generateTemporaryPassword "eve@example.org")
      (Demo.world More.nobody)
  = (Exc (User.rest "That email is not registered."),
     [Called (User_findOne (VDict [("email", VStr "eve@example.org")]) [])
        (Returns VNone)]).
Proof.
  exact (generateTemporaryPassword_unknown_email (Demo.world More.nobody)
           "eve@example.org" VNone eq_refl eq_refl).
Defined.


(** ** logout *)


(** ** login *)

Lemma unpack2_ok v E t a b t' :
  unpack2 v E t = (Ok (a, b), t') -> v = VList [a; b].
Proof.
  destruct v as [ | | | | | | l | ]; try discriminate.
  destruct l as [ | x [ | y [ | z l ] ] ]; try discriminate.
  intros H; inversion H; reflexivity.
Qed.

Lemma starts_basic_ok v E t t' :
  User.starts_basic v E t = (Ok true, t') ->
  exists s, v = VStr s /\ substring 0 6 s = "Basic "%string.
Proof.
  destruct v; intros H; try discriminate H.
  all: cbv [User.starts_basic ret] in H.
  all: try discriminate H.
  injection H as Heq _. apply String.eqb_eq in Heq. eauto.
Qed.

Lemma header_tail_ok s E t tail t' :
  User.header_tail (VStr s) E t = (Ok tail, t') -> tail = str_from 6 s.
Proof. intros H; inversion H; reflexivity. Qed.

Lemma py_in_str p s E t t' :
  py_in (VStr p) (VStr s) E t = (Ok true, t') -> is_substring p s = true.
Proof. intros H. injection H as H _. exact H. Qed.

Lemma prefix_char (a c : ascii) (s : string) :
  String.prefix (String a EmptyString) (String c s) = Ascii.eqb a c.
Proof.
  cbn [String.prefix]. destruct (ascii_dec a c) as [-> | Hne].
  - rewrite Ascii.eqb_refl. destruct s; reflexivity.
  - symmetry. apply Ascii.eqb_neq. exact Hne.
Qed.

Lemma substring_all (s : string) : substring 0 (String.length s) s = s.
Proof. induction s as [ | c s IH ]; cbn; [ reflexivity | now rewrite IH ]. Qed.

(** [s.split(':', 1)] cuts at the first colon. *)
Lemma split_colon_join (s l p : string) :
  is_substring ":" s = true ->
  split_colon s = (l, p) ->
  s = (l ++ ":" ++ p)%string /\ is_substring ":" l = false.
Proof.
  unfold split_colon. revert l p.
  induction s as [ | c s IH ]; intros l p Hin Hsplit.
  - discriminate Hin.
  - cbn [is_substring index] in Hin, Hsplit.
    rewrite prefix_char in Hin, Hsplit.
    destruct (Ascii.eqb ":" c) eqn:Hc.
    + apply Ascii.eqb_eq in Hc. subst c.
      injection Hsplit as <- <-. split; [ | reflexivity ].
      unfold str_from. cbn. now rewrite Nat.sub_0_r, substring_all.
    + cbn [orb] in Hin.
      destruct (index 0 ":" s) as [ n | ] eqn:Hi.
      * injection Hsplit as <- <-.
        destruct (IH _ _ Hin eq_refl) as [Hs Hl].
        split.
        -- cbn [substring append]. f_equal. exact Hs.
        -- cbn [substring is_substring]. rewrite prefix_char, Hc. exact Hl.
      * destruct (IH _ _ Hin eq_refl) as [_ Hl]. congruence.
Qed.

(** What a finished run tells about the pair it unpacked. *)
Ltac open_unpack :=
  repeat match goal with
         | H : unpack2 _ _ _ = (Ok (_, _), _) |- _ =>
             apply unpack2_ok in H; try (injection H as ? ?); subst
         | H : unpack2 _ _ _ = (Ok ?a, _) |- _ => destruct a
         | H : unpack2 (VList [_; _]) _ _ = (Exc _, _) |- _ => discriminate H
         end;
  cbn [fst snd] in *.


(** X5.  A request whose session is valid ([getCurrentUser(returnToken=True)]
    gives a user) is answered from that session: no header is read, nothing
    is authenticated and no new cookie is sent, and the answer carries the
    [_id], [expires] and [scope] of the token of the session. *)
Theorem login_reuses_valid_session :
  forall (E : env),
    post User.login E []
      (fun o t =>
         forall user token,
           In (Called getCurrentUser_returnToken
                 (Returns (VList [user; token]))) t ->
           truthy user = true ->
           calls_within More.session_calls t /\
           forall v, o = Ok v ->
             exists filtered tid expires scope,
               In (Called (User_filter user user) (Returns filtered)) t /\
               field "_id" token = Some tid /\
               field "expires" token = Some expires /\
               field "scope" token = Some scope /\
               v = VDict [("user", filtered);
                          ("authToken",
                           VDict [("token", tid); ("expires", expires);
                                  ("scope", scope)]);
                          ("message", VStr "Login succeeded.")]).
Proof.
  intros E. unfold User.login, User.login_basic.
  post_steps.
  all: intros user token Hin Huser; in_log.
  all: open_unpack; try congruence.
  all: norm_hyps.
  all: (split; [ solve [ within ] | ]).
  all: intros answer Hv; try discriminate Hv; inversion Hv; subst; clear Hv.
  all: do 4 eexists; repeat split; try eassumption; find_in.
Qed.


(** X6.  [login] authenticates only credentials that came in a header:
    whenever the model is asked to authenticate, the session had no user,
    the header used is [Authorization] or, when that one is missing or
    empty, [Girder-Authorization]; it starts with "Basic ", the rest of it
    was decoded to a text with a colon, login and password are the parts
    of that text before and after its first colon, and the one-time
    password is the [Girder-OTP] header. *)
Theorem login_authenticates_header_credentials :
  forall (E : env),
    post User.login E []
      (fun o t =>
         forall login password otpToken r,
           In (Called (User_authenticate login password otpToken) r) t ->
           exists user token header credentials,
             In (Called getCurrentUser_returnToken
                   (Returns (VList [user; token]))) t /\
             truthy user = false /\
             (In (Called (request_header "Authorization")
                    (Returns (VStr header))) t \/
              exists missing,
                In (Called (request_header "Authorization")
                      (Returns missing)) t /\
                truthy missing = false /\
                In (Called (request_header "Girder-Authorization")
                      (Returns (VStr header))) t) /\
             substring 0 6 header = "Basic "%string /\
             In (Called (b64decode_utf8 (str_from 6 header))
                   (Returns (VStr credentials))) t /\
             credentials = (login ++ ":" ++ password)%string /\
             is_substring ":" login = false /\
             In (Called (request_header "Girder-OTP") (Returns otpToken)) t).
Proof.
  intros E. unfold User.login, User.login_basic.
  post_steps.
  all: intros login password otpToken r Hin; in_log.
  all: open_unpack.
  all: norm_hyps.
  all: repeat match goal with
              | H : User.starts_basic _ _ _ = (Ok true, _) |- _ =>
                  apply starts_basic_ok in H; destruct H as (? & ? & ?); subst
              | H : User.header_tail (VStr _) _ _ = (Ok _, _) |- _ =>
                  apply header_tail_ok in H; subst
              | H : py_in (VStr ":") (VStr _) _ _ = (Ok true, _) |- _ =>
                  apply py_in_str in H
              end.
  all: match goal with
       | Hs : split_colon ?c = (_, _), Hc : is_substring ":" ?c = true |- _ =>
           destruct (split_colon_join _ _ _ Hc Hs) as [Hjoin Hfirst]
       end.
  all: do 4 eexists.
  all: split; [ find_in | ].
  all: split; [ assumption | ].
  all: split;
    [ first [ left; solve [ find_in ]
            | right; eexists; split; [ find_in | split; [ assumption | find_in ] ] ]
    | ].
  all: split; [ assumption | ].
  all: split; [ find_in | ].
  all: split; [ exact Hjoin | ].
  all: split; [ exact Hfirst | find_in ].
Qed.

(** X7.  What [login] answers to a request without a session and without
    usable credentials.  When the header it uses is missing or empty, or is
    a text that does not start with "Basic ", the handler raises
    [RestException('Use HTTP Basic Authentication', 401)] and decodes
    nothing.  When decoding raises, whatever the exception, or gives a text
    without a colon, it raises
    [RestException('Invalid HTTP Authorization header', 401)].  In all
    these cases nothing is authenticated and no cookie is sent. *)
Theorem login_rejects_bad_header :
  forall (E : env),
    post User.login E []
      (fun o t =>
         (forall h,
            More.header_used t h ->
            truthy h = false \/
            (exists s, h = VStr s /\ substring 0 6 s <> "Basic "%string) ->
            o = Exc (User.rest_code "Use HTTP Basic Authentication" (VInt 401))
            /\ calls_within More.no_decoding t) /\
         (forall tail r,
            In (Called (b64decode_utf8 tail) r) t ->
            (exists e, r = Raises e) \/
            (exists c, r = Returns (VStr c) /\ is_substring ":" c = false) ->
            o = Exc (User.rest_code "Invalid HTTP Authorization header"
                       (VInt 401))
            /\ calls_within More.no_authentication t)).
Proof.
  intros E. unfold User.login, User.login_basic, More.header_used.
  post_steps.
  all: open_unpack.
  all: norm_hyps.
  all: repeat match goal with
              | H : User.starts_basic _ _ _ = (Ok true, _) |- _ =>
                  apply starts_basic_ok in H; destruct H as (? & ? & ?); subst
              | H : User.header_tail (VStr _) _ _ = (Ok _, _) |- _ =>
                  apply header_tail_ok in H; subst
              | H : py_in (VStr ":") (VStr _) _ _ = (Ok true, _) |- _ =>
                  apply py_in_str in H
              end.
  all: split.
  all: try solve
         [ intros h [[Hin Hh] | (missing & Hin & Hm & Hin')] Hbad; in_log;
           destruct Hbad as [Hf | (s' & Hs & Hnot)];
           try congruence; try discriminate;
           try (injection Hs as Hs); subst;
           try contradiction;
           try match goal with
               | H : User.starts_basic (VStr _) _ _ = (Exc _, _) |- _ =>
                   discriminate H
               end;
           (split; [ reflexivity | solve [ within ] ]) ].
  all: try solve
         [ intros tail r Hin Hbad; in_log;
           destruct Hbad as [(e' & He) | (c' & Hc & Hno)];
           try discriminate;
           try (injection Hc as Hc); subst;
           try congruence;
           (split; [ reflexivity | solve [ within ] ]) ].
Qed.

(** ** createUser *)




(** X10.  [createUser] opens a session only for a registrant who is not
    logged in and whom the model lets log in: the cookie is sent for the
    user just created, for whom [setCurrentUser] has returned.  The user
    returned then
    carries an [authToken] with the [_id] and the [expires] of the token of
    the cookie (and no scope); a caller who is logged in gets the user as
    the model created it. *)
Theorem createUser_opens_session_for_registrant :
  forall (E : env) (login email : string) (firstName : option string)
         (lastName password : string) (admin : bool),
    post (User.createUser login email firstName lastName password admin) E []
      (fun o t =>
         (forall u r,
            In (Called (sendAuthTokenCookie u) r) t ->
            exists cu l p e f ln adm can s,
              In (Called getCurrentUser (Returns cu)) t /\
              truthy cu = false /\
              In (Called (User_createUser l p e f ln adm cu) (Returns u)) t /\
              In (Called (User_canLogin u) (Returns can)) t /\
              truthy can = true /\
              In (Called (setCurrentUser u) (Returns s)) t) /\
         (forall user u token,
            o = Ok user ->
            In (Called (sendAuthTokenCookie u) (Returns token)) t ->
            exists tid expires,
              field "_id" token = Some tid /\
              field "expires" token = Some expires /\
              field "authToken" user
              = Some (VDict [("token", tid); ("expires", expires)])) /\
         (forall user,
            o = Ok user ->
            (forall u r, ~ In (Called (sendAuthTokenCookie u) r) t) ->
            exists l p e f ln adm cu,
              In (Called (User_createUser l p e f ln adm cu) (Returns user))
                t)).
Proof.
  intros E login email firstName lastName password admin.
  unfold User.createUser, User.registration_gate, User.join_new_users.
  post_steps.
  all: norm_hyps.
  all: split; [ | split ].
  all: try solve
         [ intros xu xr Hin; in_log;
           do 9 eexists;
           repeat (split; [ first [ eassumption | find_in ] | ]);
           find_in ].
  all: try solve
         [ intros xuser xu xtoken Ho Hin; try discriminate Ho;
           injection Ho as <-; in_log;
           do 2 eexists;
           repeat (split; [ eassumption | ]);
           cbn [field]; apply lookup_dict_set_same ].
  all: try solve
         [ intros xuser Ho Hnone; try discriminate Ho; injection Ho as <-;
           first [ solve [ do 7 eexists; find_in ]
                 | exfalso; eapply Hnone; find_in ] ].
Qed.

(** ** updateUser *)

(** A status cannot equal both "pending" and another text. *)
Ltac status_clash :=
  repeat match goal with
         | H : lookup "status" _ = Some _, H' : context [lookup "status" _] |- _ =>
             lazymatch H' with H => fail | _ => rewrite H in H' end
         end;
  repeat match goal with
         | H : Some _ = Some _ |- _ => injection H as H; subst
         end;
  match goal with
  | H : py_eq ?st (VStr "pending") = true |- _ =>
      destruct st; try discriminate H; cbn [py_eq] in *;
      apply String.eqb_eq in H; subst
  end;
  cbn in *; congruence.

Ltac split_status :=
  match goal with
  | H : _ && _ = true |- _ =>
      apply andb_true_iff in H; destruct H as [? H];
      apply String.eqb_eq in H; subst
  end.

(** X11.  [updateUser] sends the approval mail exactly on the transition
    from [pending] to [enabled] made by an admin.  The mail is asked for
    the user as updated so far (new names and e-mail, status still
    pending); the user is saved only if sending returned, and a run that
    saves that transition has sent the mail. *)
Theorem updateUser_approval_mail :
  forall (E : env) (d : list (string * value))
         (firstName lastName email : string)
         (admin : option bool) (status : option string),
    let user := VDict d in
    post (User.updateUser user firstName lastName email admin status) E []
      (fun o t =>
         (forall u r,
            In (Called (User_sendApprovedEmail u) r) t ->
            status = Some "enabled"%string /\
            More.pending user /\
            caller_is_admin t /\
            field "status" u = field "status" user /\
            field "email" u = Some (VStr email) /\
            (forall saved r',
               In (Called (User_save saved) r') t -> exists x, r = Returns x))
         /\
         (forall saved r,
            In (Called (User_save saved) r) t ->
            status = Some "enabled"%string ->
            More.pending user ->
            exists u x, In (Called (User_sendApprovedEmail u) (Returns x)) t)).
Proof.
  intros E d firstName lastName email admin status user. subst user.
  unfold User.updateUser, User.update_admin, User.update_status, More.pending.
  post_steps.
  all: norm_hyps.
  all: cbn [field] in *.
  all: repeat first [ rewrite lookup_dict_set_same in *
                    | rewrite lookup_dict_set_other in * by reflexivity ].
  all: split.
  all: try solve [ intros xu xr Hin; in_log ].
  all: try solve
         [ intros xsaved xr Hin Hs (st & Hst & Hpending);
           try discriminate Hs; injection Hs as ->; in_log;
           first [ solve [ do 2 eexists; find_in ] | status_clash ] ].
  all: try solve
         [ intros xu xr Hin; in_log; split_status;
           dict_simpl;
           repeat split; try reflexivity;
           first [ show_admin
                 | eexists; split; eassumption
                 | intros xsaved xr' Hin'; in_log; eexists; reflexivity
                 | idtac ] ].
Qed.

(** X12.  The comparison of line 467 reads the status with the default
    ['enabled'], line 470 reads it without: for a user document that has
    no [status] field, an admin who asks for a status other than
    "enabled" gets a [KeyError], and the user is not saved. *)
Theorem updateUser_missing_status :
  forall (E : env) (d : list (string * value))
         (firstName lastName email : string)
         (admin : option bool) (s : string),
    let user := VDict d in
    field "status" user = None ->
    s <> "enabled"%string ->
    post (User.updateUser user firstName lastName email admin (Some s)) E []
      (fun o t =>
         More.caller_always_admin t ->
         o = Exc (key_error "status") /\ calls_within not_save t).
Proof.
  intros E d firstName lastName email admin s user Hnone Hs. subst user.
  cbn [field] in Hnone.
  unfold User.updateUser, User.update_admin, User.update_status.
  post_steps.
  all: norm_hyps.
  all: cbn [field] in *.
  all: repeat first [ rewrite lookup_dict_set_same in *
                    | rewrite lookup_dict_set_other in * by reflexivity ].
  all: try rewrite Hnone in *.
  all: intros [Hadmin Hquiet].
  all: try solve [ exfalso; eapply Hquiet; find_in ].
  all: repeat match goal with
              | H : oracle _ _ getCurrentUser = Returns ?v |- _ =>
                  let Hc := fresh "Hc" in
                  assert (Hc : exists ca, field "admin" v = Some ca /\
                                          truthy ca = true)
                    by (apply Hadmin; find_in);
                  destruct Hc as (? & ? & ?); clear H
              end.
  all: cbn [py_eq] in *; norm_hyps.
  all: try congruence.
  all: try solve [ split; [ reflexivity | within ] ].
Qed.

Lemma updateUser_missing_status_witness :
  post (User.updateUser More.zoe "Zoe" "Zed" "zoe@example.org" None
          (Some "disabled"%string))
    (Demo.world More.root_session) []
    (fun o t =>
       More.caller_always_admin t ->
       o = Exc (key_error "status") /\ calls_within not_save t).
Proof.
  apply (updateUser_missing_status (Demo.world More.root_session)
           [("_id", VId "20e"); ("login", VStr "zoe"); ("admin", VBool false)]
           "Zoe" "Zed" "zoe@example.org" None "disabled");
    [ reflexivity | discriminate ].
Defined.

(** The demonstration run: root disables zoe, whose document has no
    status yet. *)
Example updateUser_missing_status_demo :
  run (User.updateUser More.zoe "Zoe" "Zed" "zoe@example.org" None
         (Some "disabled"%string))
      (Demo.world More.root_session)
  = (Exc (key_error "status"), [Called getCurrentUser (Returns Demo.root)]).
Proof. reflexivity. Qed.

(** ** verifyEmail *)





(** ** mongoSearch *)






(** ** What a computation adds to the log *)

Section Emits.

Context {A B : Type} (P : outcall -> Prop).

Lemma emits_ret (a : A) : emits P (ret a).
Proof. intros E t. exists []. split; [ symmetry; apply app_nil_r | intros c r [] ]. Qed.

Lemma emits_raise (e : exn) : emits P (@raise A e).
Proof. intros E t. exists []. split; [ symmetry; apply app_nil_r | intros c r [] ]. Qed.

Lemma emits_ask (f : env -> A) : emits P (ask f).
Proof. intros E t. exists []. split; [ symmetry; apply app_nil_r | intros c r [] ]. Qed.

Lemma emits_pyop (p : M A) : pyop p -> emits P p.
Proof.
  intros Hp E t. exists []. rewrite app_nil_r. split; [ | intros c r [] ].
  destruct (Hp E t) as [[a Ha] | [e [He _]]]; [ rewrite Ha | rewrite He ];
    reflexivity.
Qed.

Lemma emits_bind (p : M A) (f : A -> M B) :
  emits P p -> (forall a, emits P (f a)) -> emits P (bind p f).
Proof.
  intros Hp Hf E t. destruct (Hp E t) as (s & Hs & HP).
  unfold bind. destruct (p E t) as [[a | e] t']; cbn [snd] in *; subst t'.
  - destruct (Hf a E (t ++ s)) as (s' & Hs' & HP').
    exists (s ++ s'). rewrite Hs', app_assoc. split; [ reflexivity | ].
    intros c r Hin. apply in_app_or in Hin as [Hin | Hin]; eauto.
  - exists s. split; [ reflexivity | exact HP ].
Qed.

Lemma emits_bind_pyop (p : M A) (f : A -> M B) :
  pyop p ->
  (forall a, (exists E t, p E t = (Ok a, t)) -> emits P (f a)) ->
  emits P (bind p f).
Proof.
  intros Hp Hf E t. unfold bind.
  destruct (Hp E t) as [[a Ha] | [e [He _]]].
  - rewrite Ha. apply Hf. eauto.
  - rewrite He. exists []. split; [ symmetry; apply app_nil_r | intros c r [] ].
Qed.

Lemma emits_try_except (p : M A) (h : exn -> M A) :
  emits P p -> (forall e, emits P (h e)) -> emits P (try_except p h).
Proof.
  intros Hp Hh E t. destruct (Hp E t) as (s & Hs & HP).
  unfold try_except. destruct (p E t) as [[a | e] t']; cbn [snd] in *; subst t'.
  - exists s. split; [ reflexivity | exact HP ].
  - destruct (Hh e E (t ++ s)) as (s' & Hs' & HP').
    exists (s ++ s'). rewrite Hs', app_assoc. split; [ reflexivity | ].
    intros c r Hin. apply in_app_or in Hin as [Hin | Hin]; eauto.
Qed.

Lemma emits_try_except_class (k : exn_class) (p : M A) (h : exn -> M A) :
  emits P p -> (forall e, emits P (h e)) -> emits P (try_except_class k p h).
Proof.
  intros Hp Hh. unfold try_except_class. apply emits_try_except; [ exact Hp | ].
  intro e. destruct (exn_class_eqb (cls e) k); [ apply Hh | apply emits_raise ].
Qed.

Lemma emits_attempt (p : M A) : emits P p -> emits P (attempt p).
Proof.
  intros Hp E t. destruct (Hp E t) as (s & Hs & HP).
  unfold attempt. destruct (p E t) as [[a | e] t']; cbn [snd] in *; subst t';
    exists s; (split; [ reflexivity | exact HP ]).
Qed.

End Emits.

Lemma emits_call (P : outcall -> Prop) (c : outcall) :
  P c -> emits P (call c).
Proof.
  intros Hc E t. unfold call.
  destruct (oracle E t c) as [v | e]; cbn [snd];
    eexists; (split; [ reflexivity | ]);
    intros c' r' [Heq | []]; inversion Heq; subst; exact Hc.
Qed.

Lemma emits_print (P : outcall -> Prop) (p : printable) : emits P (print p).
Proof.
  intros E t. unfold print. eexists. split; [ reflexivity | ].
  intros c r [Heq | []]. discriminate Heq.
Qed.

Lemma emits_mono {A} (P P' : outcall -> Prop) (p : M A) :
  (forall c, P c -> P' c) -> emits P p -> emits P' p.
Proof.
  intros Himp Hp E t. destruct (Hp E t) as (s & Hs & HP).
  exists s. split; [ exact Hs | ]. intros c r Hin. apply Himp. eauto.
Qed.

Lemma emits_mapM {A B} (P : outcall -> Prop) (f : A -> M B) (l : list A) :
  (forall x, In x l -> emits P (f x)) -> emits P (mapM f l).
Proof.
  induction l as [ | x l IH ]; intros Hf; cbn [mapM].
  - apply emits_ret.
  - apply emits_bind; [ apply Hf; left; reflexivity | intros y ].
    apply emits_bind; [ apply IH; intros; apply Hf; right; assumption | ].
    intros ys. apply emits_ret.
Qed.

Lemma emits_filter_mapM {A B} (P : outcall -> Prop) (g : A -> M (option B))
  (l : list A) :
  (forall x, In x l -> emits P (g x)) -> emits P (filter_mapM g l).
Proof.
  induction l as [ | x l IH ]; intros Hg; cbn [filter_mapM].
  - apply emits_ret.
  - apply emits_bind; [ apply Hg; left; reflexivity | intros o ].
    apply emits_bind; [ apply IH; intros; apply Hg; right; assumption | ].
    intros ys. apply emits_ret.
Qed.

(** What [emits] says of a run. *)
Lemma post_emits {A} (P : outcall -> Prop) (p : M A) E t
  (Q : outcome A -> list event -> Prop) :
  emits P p ->
  (forall o s, (forall c r, In (Called c r) s -> P c) -> Q o (t ++ s)) ->
  post p E t Q.
Proof.
  intros Hp HQ. unfold post. destruct (Hp E t) as (s & Hs & HP).
  rewrite Hs. apply HQ. exact HP.
Qed.

(** A proof of [emits P p] that follows the structure of [p]; [side]
    proves [P c] for the calls. *)
Ltac emit_with side :=
  repeat first
    [ apply emits_ret
    | apply emits_raise
    | apply emits_print
    | apply emits_call; side
    | apply emits_pyop; solve [ auto with pyops ]
    | apply emits_try_except_class; [ | intros ]
    | apply emits_try_except; [ | intros ]
    | apply emits_attempt
    | apply emits_bind_pyop;
      [ solve [ auto with pyops ] | intros ? (? & ? & ?) ]
    | apply emits_bind; [ | intros ]
    | apply emits_mapM; intros
    | apply emits_filter_mapM; intros
    | match goal with
      | |- emits _ (if ?b then _ else _) => destruct b
      | |- emits _ (match ?x with _ => _ end) => destruct x
      end ].

Lemma emits_members_loop (P : outcall -> Prop) body ms applets :
  (forall m, emits P (body m)) ->
  emits P (User.members_loop body ms applets).
Proof.
  intros Hbody. revert applets.
  induction ms as [ | m ms IH ]; intros applets; cbn [User.members_loop].
  - apply emits_ret.
  - apply emits_bind; [ apply emits_attempt, Hbody | ].
    intros [[a | ] | e]; [ apply IH | apply IH | ].
    emit_with idtac.
Qed.

Lemma emits_assignments_loop (P : outcall -> Prop) user reviewer assignments
  applets :
  (forall a m, emits P (User.member_applet user reviewer a m)) ->
  emits P (User.assignments_loop user reviewer assignments applets).
Proof.
  intros Hbody. revert applets.
  induction assignments as [ | a rest IH ]; intros applets;
    cbn [User.assignments_loop].
  - apply emits_ret.
  - apply emits_bind; [ | intros; apply IH ].
    unfold User.process_assignment, User.assignment_members.
    apply emits_bind; [ emit_with idtac | ].
    intros [ms | e]; [ apply emits_members_loop, Hbody | emit_with idtac ].
Qed.

Lemma emits_by_id (P : outcall -> Prop) applets d :
  emits P (User.by_id applets d).
Proof.
  revert d. induction applets as [ | a rest IH ]; intros d; cbn [User.by_id].
  - apply emits_ret.
  - destruct a; try apply IH.
    emit_with idtac. apply IH.
Qed.

(** ** getUserApplets *)

Lemma py_iter_ok v E t l t' :
  py_iter v E t = (Ok l, t') -> l = elements v.
Proof.
  destruct v; try discriminate; intros H; injection H as <- _; reflexivity.
Qed.

Lemma parent_id_ok reviewer E t a t' :
  py_get (if truthy reviewer then reviewer else VDict []) "_id" VNone E t
  = (Ok a, t') ->
  a = id_or_none reviewer.
Proof.
  unfold id_or_none. intros H. apply py_get_ok in H.
  destruct (truthy reviewer); exact H.
Qed.

Ltac reads_side :=
  cbn [reads_as]; unfold groups_of;
  first [ reflexivity
        | solve [ repeat split; auto ]
        | solve [ eexists; split; [ eassumption | reflexivity ] ]
        | solve [ repeat match goal with
                         | H : py_get (if truthy _ then _ else _) _ _ _ _
                               = (Ok _, _) |- _ =>
                             apply parent_id_ok in H; subst
                         end; reflexivity ] ].

Lemma member_applet_reads_as role user reviewer assignment assignedUser :
  emits (reads_as role user reviewer)
    (User.member_applet user reviewer assignment assignedUser).
Proof.
  unfold User.member_applet, User.own_applet, User.userid_of,
    User.deleted_flag.
  emit_with reads_side.
Qed.

(** X16.  For a request whose path names a user, [getUserApplets] asks
    twice for the current user and from then on works for that user alone:
    applets are found by the groups of the current user with the
    lower-cased role, and the collections, folders and applets are read,
    and the applets formatted, as the current user.  The user of the path
    appears in no call. *)
Theorem getUserApplets_reads_as_current_user :
  forall (E : env) (user : value) (role : string) (ids_only : bool),
    truthy user = true ->
    post (User.getUserApplets user role ids_only) E []
      (fun o t =>
         ((exists r, t = [Called getCurrentUser r]) \/
          (exists current r rest,
             t = Called getCurrentUser (Returns current)
                 :: Called getCurrentUser r :: rest)) /\
         (forall current reviewer rest,
            t = Called getCurrentUser (Returns current)
                :: Called getCurrentUser (Returns reviewer) :: rest ->
            forall c r,
              In (Called c r) rest ->
              reads_as (str_lower E role) current reviewer c)).
Proof.
  intros E user role ids_only Huser.
  unfold User.getUserApplets. rewrite Huser. cbn [negb].
  repeat lazymatch goal with
         | |- post (bind (mapM _ _) _) _ _ _ => fail
         | |- post _ _ _ _ => post_step
         end.
  all: norm_hyps.
  all: repeat match goal with
              | H : py_iter _ _ _ = (Ok _, _) |- _ =>
                  apply py_iter_ok in H; subst
              end.
  all: try match goal with
           | |- post _ _ [Called getCurrentUser (Returns ?cu);
                          Called getCurrentUser (Returns ?rv)] _ =>
               apply (post_emits (reads_as (str_lower E role) cu rv));
               [ repeat first
                   [ apply emits_assignments_loop; intros;
                     apply member_applet_reads_as
                   | apply emits_by_id
                   | progress emit_with reads_side
                   | progress unfold User.format_applets, User.deleted_flag ]
               | intros o s Hs ]
           end.
  all: (split;
        [ first [ left; eexists; reflexivity
                | right; do 3 eexists; reflexivity ]
        | intros current reviewer rest Heq; try discriminate Heq;
          injection Heq as <- <- <-; intros c r Hin;
          first [ solve [ in_log ] | eapply Hs; exact Hin ] ]).
Qed.

Lemma getUserApplets_reads_as_current_user_witness :
  post (User.getUserApplets Demo.alice "user" false)
    (Demo.world Demo.assignments_flow) []
    (fun o t =>
       ((exists r, t = [Called getCurrentUser r]) \/
        (exists current r rest,
           t = Called getCurrentUser (Returns current)
               :: Called getCurrentUser r :: rest)) /\
       (forall current reviewer rest,
          t = Called getCurrentUser (Returns current)
              :: Called getCurrentUser (Returns reviewer) :: rest ->
          forall c r,
            In (Called c r) rest ->
            reads_as "user" current reviewer c)).
Proof.
  exact (getUserApplets_reads_as_current_user
           (Demo.world Demo.assignments_flow) Demo.alice "user" false
           eq_refl).
Defined.

(** X17.  The role is checked, in lower case, against [USER_ROLES] before
    any model is asked: for a role that is not among them the handler has
    at most asked for the current user, and unless that call raised it
    raises a [RestException] with the message "Invalid user role." and
    ['role'] as its second argument. *)
Theorem getUserApplets_invalid_role :
  forall (E : env) (user : value) (role : string) (ids_only : bool),
    existsb (String.eqb (str_lower E role)) (USER_ROLES E) = false ->
    post (User.getUserApplets user role ids_only) E []
      (fun o t =>
         calls_within More.only_getCurrentUser t /\
         (length t <= 1)%nat /\
         (quiet t = true ->
          o = Exc (User.rest_code "Invalid user role." (VStr "role")))).
Proof.
  intros E user role ids_only Hrole.
  unfold User.getUserApplets.
  post_steps.
  all: repeat split; try solve [ within ]; try (cbn [length]; lia).
  all: try reflexivity.
  all: intros Hquiet; discriminate Hquiet.
Qed.

Lemma getUserApplets_invalid_role_witness :
  post (User.getUserApplets Demo.alice "Owner" false)
    (Demo.world Demo.applets_flow) []
    (fun o t =>
       calls_within More.only_getCurrentUser t /\
       (length t <= 1)%nat /\
       (quiet t = true ->
        o = Exc (User.rest_code "Invalid user role." (VStr "role")))).
Proof.
  exact (getUserApplets_invalid_role (Demo.world Demo.applets_flow)
           Demo.alice "Owner" false eq_refl).
Defined.

(** X18.  The route is public, and line 163 reads the groups of the
    current user: for a visitor who is not logged in ([getCurrentUser]
    gives [None]) and a valid role, the handler raises an
    [AttributeError] as soon as it has the reviewer, before any model is
    asked. *)
Theorem getUserApplets_anonymous :
  forall (E : env) (user : value) (role : string) (ids_only : bool)
         (reviewer : value),
    truthy user = true ->
    existsb (String.eqb (str_lower E role)) (USER_ROLES E) = true ->
    oracle E [] getCurrentUser = Returns VNone ->
    oracle E [Called getCurrentUser (Returns VNone)] getCurrentUser
    = Returns reviewer ->
    run (User.getUserApplets user role ids_only) E
    = (Exc attribute_error,
       [Called getCurrentUser (Returns VNone);
        Called getCurrentUser (Returns reviewer)]).
Proof.
  intros E user role ids_only reviewer Huser Hrole Hfirst Hsecond.
  unfold run, User.getUserApplets, bind, call, lower, ask.
  rewrite Huser. cbn [negb]. rewrite Hfirst. cbn [app].
  rewrite Hrole. cbn [negb]. rewrite Hsecond. reflexivity.
Qed.

Lemma getUserApplets_anonymous_witness :
  run (User.getUserApplets Demo.alice "user" false) (Demo.world More.nobody)
  = (Exc attribute_error,
     [Called getCurrentUser (Returns VNone);
      Called getCurrentUser (Returns VNone)]).
Proof.
  exact (getUserApplets_anonymous (Demo.world More.nobody) Demo.alice "user"
           false VNone eq_refl eq_refl eq_refl eq_refl).
Defined.

(** *** Lines 252-259: one applet per [_id] *)

Lemma py_eq_refl_hashable (a : value) : hashable a = true -> py_eq a a = true.
Proof.
  destruct a; try discriminate; intros _; cbn [py_eq].
  - reflexivity.
  - apply Bool.eqb_reflx.
  - apply Z.eqb_refl.
  - apply String.eqb_refl.
  - apply String.eqb_refl.
  - apply Z.eqb_refl.
Qed.

Lemma py_eq_sym_hashable (a b : value) :
  hashable a = true -> hashable b = true -> py_eq a b = py_eq b a.
Proof.
  destruct a, b; try discriminate; intros _ _; cbn [py_eq];
    try reflexivity.
  - destruct b, b0; reflexivity.
  - apply Z.eqb_sym.
  - apply Z.eqb_sym.
  - apply Z.eqb_sym.
  - apply String.eqb_sym.
  - apply String.eqb_sym.
  - apply Z.eqb_sym.
Qed.

Lemma py_eq_trans_hashable (a b c : value) :
  hashable a = true -> hashable b = true -> hashable c = true ->
  py_eq a b = true -> py_eq b c = true -> py_eq a c = true.
Proof.
  destruct a, b, c; try discriminate; intros _ _ _; cbn [py_eq];
    intros H1 H2; try discriminate; try reflexivity.
  all: repeat match goal with
              | H : Bool.eqb _ _ = true |- _ => apply Bool.eqb_prop in H
              | H : (_ =? _)%Z = true |- _ => apply Z.eqb_eq in H
              | H : (_ =? _)%string = true |- _ => apply String.eqb_eq in H
              end; subst.
  all: first [ apply Bool.eqb_reflx | apply Z.eqb_refl | apply String.eqb_refl
             | idtac ].
  all: repeat match goal with
              | b : bool |- _ => destruct b
              end; first [ reflexivity | discriminate ].
Qed.

Lemma kv_set_keys k v d k' :
  In k' (map fst d) -> In k' (map fst (User.kv_set k v d)).
Proof.
  induction d as [ | [k0 v0] d IH ]; cbn [User.kv_set map fst].
  - intros [].
  - destruct (py_eq k0 k); cbn [map fst In]; tauto.
Qed.

Lemma kv_set_covers k v d :
  hashable k = true ->
  exists k', In (k', v) (User.kv_set k v d) /\ py_eq k' k = true.
Proof.
  intros Hk. induction d as [ | [k0 v0] d IH ]; cbn [User.kv_set].
  - exists k. split; [ left; reflexivity | apply py_eq_refl_hashable, Hk ].
  - destruct (py_eq k0 k) eqn:Heq.
    + exists k0. split; [ left; reflexivity | exact Heq ].
    + destruct IH as (k' & Hin & Hk'). exists k'. split; [ right | ]; assumption.
Qed.

Lemma kv_set_in k v d k' v' :
  In (k', v') (User.kv_set k v d) ->
  In (k', v') d \/
  (v' = v /\ py_eq k' k = true /\ exists v0, In (k', v0) d) \/
  (k' = k /\ v' = v).
Proof.
  induction d as [ | [k0 v0] d IH ]; cbn [User.kv_set].
  - intros [Heq | []]. injection Heq as <- <-. right. right. split; reflexivity.
  - destruct (py_eq k0 k) eqn:Heq.
    + intros [Hhd | Htl].
      * injection Hhd as <- <-. right. left.
        split; [ reflexivity | split; [ exact Heq | ] ].
        exists v0. left. reflexivity.
      * left. right. exact Htl.
    + intros [Hhd | Htl].
      * left. left. exact Hhd.
      * destruct (IH Htl) as [Hin | [(Hv & Hk & v1 & Hin) | Hnew]].
        -- left. right. exact Hin.
        -- right. left. split; [ exact Hv | split; [ exact Hk | ] ].
           exists v1. right. exact Hin.
        -- right. right. exact Hnew.
Qed.

Lemma kv_set_keys_inv k v d k' :
  In k' (map fst (User.kv_set k v d)) -> In k' (map fst d) \/ k' = k.
Proof.
  induction d as [ | [k0 v0] d IH ]; cbn [User.kv_set].
  - intros [Heq | []]. right. symmetry. exact Heq.
  - destruct (py_eq k0 k); cbn [map fst In]; [ tauto | ].
    intros [Heq | Hin]; [ tauto | ]. destruct (IH Hin); tauto.
Qed.

Lemma kv_set_preserves k v d k' v' :
  In (k', v') d -> py_eq k' k = false -> In (k', v') (User.kv_set k v d).
Proof.
  intros Hin Hne. induction d as [ | [k0 v0] d IH ]; cbn [User.kv_set].
  - destruct Hin.
  - destruct Hin as [Heq | Hin].
    + injection Heq as -> ->. rewrite Hne. left. reflexivity.
    + destruct (py_eq k0 k); right; [ exact Hin | apply IH, Hin ].
Qed.

Lemma kv_set_distinct k v d :
  distinct_keys d -> distinct_keys (User.kv_set k v d).
Proof.
  induction d as [ | [k0 v0] d IH ]; cbn [User.kv_set distinct_keys].
  - intros _. split; [ intros k' [] | exact I ].
  - intros [Hhd Htl]. destruct (py_eq k0 k) eqn:Heq; cbn [distinct_keys].
    + split; assumption.
    + split; [ | apply IH, Htl ].
      intros k' Hin. apply kv_set_keys_inv in Hin as [Hin | ->];
        [ apply Hhd, Hin | exact Heq ].
Qed.

Lemma in_keys {K V} (k : K) (v : V) d : In (k, v) d -> In k (map fst d).
Proof. intros Hin. apply (in_map fst) in Hin. exact Hin. Qed.

Lemma kv_set_keyed v d :
  keyed_by_id d ->
  is_dict v = true -> hashable (id_of v) = true ->
  keyed_by_id (User.kv_set (id_of v) v d).
Proof.
  intros [Hd Hall] Hv Hk. split; [ apply kv_set_distinct, Hd | ].
  intros k' v' Hin.
  apply kv_set_in in Hin as [Hin | [(-> & Heq & v0 & Hin) | [-> ->]]].
  - apply Hall, Hin.
  - destruct (Hall _ _ Hin) as (Hk' & _). repeat split; assumption.
  - repeat split; try assumption. apply py_eq_refl_hashable, Hk.
Qed.

Lemma by_id_step (a : value) (d0 : list (string * value)) rest d E t :
  a = VDict d0 ->
  User.by_id (a :: rest) d E t
  = if hashable (id_of a)
    then User.by_id rest (User.kv_set (id_of a) a d) E t
    else (Exc type_error, t).
Proof.
  intros ->. cbn [User.by_id]. unfold bind, py_get, ret, id_of. cbn [field].
  destruct (hashable _); reflexivity.
Qed.

Lemma by_id_index_by applets d E t :
  User.by_id applets d E t
  = (match index_by applets d with
     | Some d' => Ok (map snd d')
     | None => Exc type_error
     end, t).
Proof.
  revert d. induction applets as [ | a rest IH ]; intros d.
  - reflexivity.
  - cbn [index_by]. destruct a; cbn [is_dict]; try apply IH.
    rewrite (by_id_step _ d0) by reflexivity.
    destruct (hashable _); [ apply IH | reflexivity ].
Qed.

Lemma index_by_keyed l : forall d d',
  keyed_by_id d -> index_by l d = Some d' -> keyed_by_id d'.
Proof.
  induction l as [ | a rest IH ]; intros d d' Hd; cbn [index_by].
  - intros H; injection H as <-. exact Hd.
  - destruct (is_dict a) eqn:Ha; [ | apply IH, Hd ].
    destruct (hashable (id_of a)) eqn:Hh; [ | discriminate ].
    apply IH, kv_set_keyed; assumption.
Qed.

Lemma index_by_from l k v : forall d d',
  index_by l d = Some d' -> In (k, v) d' -> In (k, v) d \/ In v l.
Proof.
  induction l as [ | a rest IH ]; intros d d'; cbn [index_by].
  - intros H; injection H as <-. tauto.
  - destruct (is_dict a) eqn:Ha.
    + destruct (hashable (id_of a)); [ | discriminate ].
      intros H Hin. destruct (IH _ _ H Hin) as [Hset | Hrest].
      * apply kv_set_in in Hset as [Hold | [(-> & _) | [_ ->]]];
          [ left; exact Hold | right; left; reflexivity
          | right; left; reflexivity ].
      * right. right. exact Hrest.
    + intros H Hin.
      destruct (IH _ _ H Hin); [ left | right; right ]; assumption.
Qed.

Lemma index_by_hashable l a : forall d d',
  index_by l d = Some d' -> In a l -> is_dict a = true ->
  hashable (id_of a) = true.
Proof.
  induction l as [ | x rest IH ]; intros d d'; cbn [index_by].
  - intros _ [].
  - intros H [-> | Hin] Ha.
    + rewrite Ha in H.
      destruct (hashable (id_of a)); [ reflexivity | discriminate ].
    + destruct (is_dict x);
        [ destruct (hashable (id_of x)); [ | discriminate ] | ];
        eapply IH; eassumption.
Qed.

Lemma index_by_keys l k : forall d d',
  index_by l d = Some d' -> In k (map fst d) -> In k (map fst d').
Proof.
  induction l as [ | x rest IH ]; intros d d'; cbn [index_by].
  - intros H; injection H as <-. tauto.
  - destruct (is_dict x);
      [ destruct (hashable (id_of x)); [ | discriminate ] | ];
      intros H Hin; eapply IH; try eassumption.
    apply kv_set_keys, Hin.
Qed.

Lemma index_by_covers l a : forall d d',
  index_by l d = Some d' -> In a l -> is_dict a = true ->
  exists k, In k (map fst d') /\ py_eq k (id_of a) = true.
Proof.
  induction l as [ | x rest IH ]; intros d d'; cbn [index_by].
  - intros _ [].
  - intros H [-> | Hin] Ha.
    + rewrite Ha in H.
      destruct (hashable (id_of a)) eqn:Hh; [ | discriminate ].
      destruct (kv_set_covers (id_of a) a d Hh) as (k & Hk & Heq).
      exists k. split; [ | exact Heq ].
      eapply index_by_keys; [ exact H | ]. eapply in_keys, Hk.
    + destruct (is_dict x);
        [ destruct (hashable (id_of x)); [ | discriminate ] | ];
        eapply IH; eassumption.
Qed.

Lemma index_by_survives l k v : forall d d',
  index_by l d = Some d' -> In (k, v) d ->
  (forall b, In b l -> is_dict b = true -> py_eq k (id_of b) = false) ->
  In (k, v) d'.
Proof.
  induction l as [ | x rest IH ]; intros d d'; cbn [index_by].
  - intros H; injection H as <-. tauto.
  - intros H Hin Hne. destruct (is_dict x) eqn:Hx.
    + destruct (hashable (id_of x)); [ | discriminate ].
      eapply IH; [ exact H | | intros; apply Hne; [ right | ]; assumption ].
      apply kv_set_preserves; [ exact Hin | ].
      apply Hne; [ left; reflexivity | exact Hx ].
    + eapply IH; [ exact H | exact Hin | ].
      intros; apply Hne; [ right | ]; assumption.
Qed.

Lemma index_by_none l : forall d,
  index_by l d = None ->
  exists a, In a l /\ is_dict a = true /\ hashable (id_of a) = false.
Proof.
  induction l as [ | x rest IH ]; intros d; cbn [index_by].
  - discriminate.
  - destruct (is_dict x) eqn:Hx.
    + destruct (hashable (id_of x)) eqn:Hh.
      * intros H. destruct (IH _ H) as (a & Hin & Ha).
        exists a. split; [ right; exact Hin | exact Ha ].
      * intros _. exists x. split; [ left; reflexivity | split; assumption ].
    + intros H. destruct (IH _ H) as (a & Hin & Ha).
      exists a. split; [ right; exact Hin | exact Ha ].
Qed.

Lemma index_by_app l1 l2 : forall d,
  index_by (l1 ++ l2) d
  = match index_by l1 d with
    | Some d1 => index_by l2 d1
    | None => None
    end.
Proof.
  induction l1 as [ | x rest IH ]; intros d; cbn [index_by app].
  - reflexivity.
  - destruct (is_dict x); [ destruct (hashable (id_of x)) | ];
      first [ apply IH | reflexivity ].
Qed.

Lemma distinct_ids_values d :
  keyed_by_id d -> distinct_ids (map snd d).
Proof.
  intros [Hd Hall]. induction d as [ | [k v] d IH ]; cbn [map snd distinct_ids].
  - exact I.
  - destruct Hd as [Hhd Htl]. split.
    + intros y Hy. apply in_map_iff in Hy as ([k' v'] & <- & Hin).
      cbn [snd].
      destruct (Hall k v (or_introl eq_refl)) as (Hk & _ & Hidv & Hkv).
      destruct (Hall k' v' (or_intror Hin)) as (Hk' & _ & Hidv' & Hkv').
      destruct (py_eq (id_of v) (id_of v')) eqn:Heq; [ | reflexivity ].
      rewrite <- (Hhd k' (in_keys _ _ _ Hin)).
      symmetry. apply (py_eq_trans_hashable k (id_of v) k'); try assumption.
      apply (py_eq_trans_hashable (id_of v) (id_of v') k'); try assumption.
      rewrite py_eq_sym_hashable by assumption. exact Hkv'.
    + apply IH; [ exact Htl | ]. intros; apply Hall; right; assumption.
Qed.

Lemma keyed_by_id_nil : keyed_by_id [].
Proof. split; [ exact I | intros k v [] ]. Qed.

(** X19.  Lines 252-259 keep one applet per [_id].  Either the list that
    they build contains only dictionaries of the list they were given, no
    two of them with equal [_id]s; every dictionary given has its [_id]
    represented, and a dictionary that no later one equals in [_id] is
    itself in the result (of two applets with the same [_id] the later one
    stays); what is not a dictionary is dropped.  Or some dictionary given
    has an [_id] that cannot be a key, and a [TypeError] is raised.  The
    log is left as it was. *)
Theorem by_id_one_per_id :
  forall (applets : list value) (E : env) (t : list event),
    (exists result,
        User.by_id applets [] E t = (Ok result, t) /\
        (forall x, In x result -> In x applets /\ is_dict x = true) /\
        distinct_ids result /\
        (forall a, In a applets -> is_dict a = true ->
                   exists x, In x result /\
                             py_eq (id_of x) (id_of a) = true) /\
        (forall l1 a l2,
            applets = l1 ++ a :: l2 -> is_dict a = true ->
            (forall b, In b l2 -> is_dict b = true ->
                       py_eq (id_of b) (id_of a) = false) ->
            In a result)) \/
    (User.by_id applets [] E t = (Exc type_error, t) /\
     exists a, In a applets /\ is_dict a = true /\
               hashable (id_of a) = false).
Proof.
  intros applets E t. rewrite by_id_index_by.
  destruct (index_by applets []) as [d | ] eqn:Hd.
  - left. exists (map snd d). split; [ reflexivity | ].
    pose proof (index_by_keyed _ _ _ keyed_by_id_nil Hd) as Hkeyed.
    split; [ | split; [ | split ] ].
    + intros x Hx. apply in_map_iff in Hx as ([k v] & <- & Hin). cbn [snd].
      split.
      * destruct (index_by_from _ _ _ _ _ Hd Hin) as [[] | Hv]. exact Hv.
      * apply (proj2 Hkeyed _ _ Hin).
    + apply distinct_ids_values, Hkeyed.
    + intros a Hin Ha.
      destruct (index_by_covers _ _ _ _ Hd Hin Ha) as (k & Hk & Heq).
      apply in_map_iff in Hk as ([k' v] & <- & Hkv). cbn [fst] in Heq.
      exists v. split; [ apply (in_map snd) in Hkv; exact Hkv | ].
      destruct (proj2 Hkeyed _ _ Hkv) as (Hk' & _ & Hidv & Hkid).
      pose proof (index_by_hashable _ _ _ _ Hd Hin Ha) as Hida.
      apply (py_eq_trans_hashable _ k'); try assumption.
      rewrite py_eq_sym_hashable by assumption. exact Hkid.
    + intros l1 a l2 -> Ha Hlater.
      rewrite index_by_app in Hd.
      destruct (index_by l1 []) as [d1 | ] eqn:Hd1; [ | discriminate ].
      cbn [index_by] in Hd. rewrite Ha in Hd.
      destruct (hashable (id_of a)) eqn:Hida; [ | discriminate ].
      destruct (kv_set_covers (id_of a) a d1 Hida) as (k & Hk & Heq).
      assert (Hkeyed1 : keyed_by_id (User.kv_set (id_of a) a d1)).
      { apply kv_set_keyed; try assumption.
        eapply index_by_keyed; [ exact keyed_by_id_nil | exact Hd1 ]. }
      destruct (proj2 Hkeyed1 _ _ Hk) as (Hkh & _).
      apply (in_map snd) with (x := (k, a)). 
      eapply index_by_survives; [ exact Hd | exact Hk | ].
      intros b Hb Hbd.
      pose proof (index_by_hashable _ _ _ _ Hd Hb Hbd) as Hidb.
      destruct (py_eq k (id_of b)) eqn:Hkb; [ | reflexivity ].
      rewrite <- (Hlater b Hb Hbd). symmetry.
      apply (py_eq_trans_hashable _ k); try assumption.
      rewrite py_eq_sym_hashable by assumption. exact Hkb.
  - right. split; [ reflexivity | ]. apply (index_by_none _ _ Hd).
Qed.

(** *** Lines 192-251: the applets of the assignments *)

Lemma deleted_flag_eq applet default E t :
  User.deleted_flag applet default E t
  = (match deleted_of applet default with
     | Some d => Ok d
     | None => Exc attribute_error
     end, t).
Proof.
  unfold User.deleted_flag, deleted_of, get_or, bind, py_get, ret, raise.
  destruct applet; try reflexivity.
  destruct (match lookup "meta" d with Some x => x | None => VDict [] end);
    try reflexivity.
  destruct (match lookup "applet" d0 with Some x => x | None => VDict [] end);
    reflexivity.
Qed.

Lemma pyop_deleted_flag applet default :
  pyop (User.deleted_flag applet default).
Proof.
  intros E t. rewrite deleted_flag_eq.
  destruct (deleted_of applet default); [ left | right ]; eauto.
Qed.

Lemma deleted_flag_ok applet default E t d t' :
  User.deleted_flag applet default E t = (Ok d, t') ->
  deleted_of applet default = Some d.
Proof.
  rewrite deleted_flag_eq.
  destruct (deleted_of applet default); intros H; inversion H; reflexivity.
Qed.

#[local] Hint Resolve pyop_deleted_flag : pyops.

Lemma loaded_from_later reviewer assignment a s1 s2 :
  loaded_from reviewer assignment a s2 ->
  loaded_from reviewer assignment a (s1 ++ s2).
Proof.
  intros [(i & Hi & Hin) Hd]. split; [ | exact Hd ].
  exists i. split; [ exact Hi | apply in_or_app; right; exact Hin ].
Qed.

Lemma loaded_from_earlier reviewer assignment a s1 s2 :
  loaded_from reviewer assignment a s1 ->
  loaded_from reviewer assignment a (s1 ++ s2).
Proof.
  intros [(i & Hi & Hin) Hd]. split; [ | exact Hd ].
  exists i. split; [ exact Hi | apply in_or_app; left; exact Hin ].
Qed.

Lemma offers_ret_none reviewer assignment :
  offers reviewer assignment (ret None).
Proof.
  intros E t. exists []. split; [ symmetry; apply app_nil_r | ].
  intros a H. discriminate H.
Qed.

Lemma offers_raise reviewer assignment e :
  offers reviewer assignment (raise e).
Proof.
  intros E t. exists []. split; [ symmetry; apply app_nil_r | ].
  intros a H. discriminate H.
Qed.

Lemma offers_bind {A} reviewer assignment (p : M A) (f : A -> M (option value)) :
  emits (fun _ => True) p ->
  (forall a, offers reviewer assignment (f a)) ->
  offers reviewer assignment (bind p f).
Proof.
  intros Hp Hf E t. destruct (Hp E t) as (s & Hs & _).
  unfold post, bind. destruct (p E t) as [[a | e] t1]; cbn [snd] in Hs; subst t1.
  - destruct (Hf a E (t ++ s)) as (s' & Hs' & Hload).
    exists (s ++ s'). rewrite app_assoc. split; [ exact Hs' | ].
    intros x Hx. apply loaded_from_later, Hload, Hx.
  - exists s. split; [ reflexivity | intros x Hx; discriminate Hx ].
Qed.

(** Two readings of a field give the same value. *)
Ltac merge_fields :=
  repeat match goal with
         | H1 : field ?k ?v = Some _, H2 : field ?k ?v = Some _ |- _ =>
             rewrite H1 in H2; injection H2 as H2;
             first [ subst | idtac ]
         end.

Lemma offers_own_applet reviewer assignment :
  offers reviewer assignment (User.own_applet assignment reviewer).
Proof.
  intros E t. unfold User.own_applet.
  post_steps.
  all: rewrite <- ?app_assoc.
  all: eexists;
       (split; [ first [ reflexivity | symmetry; apply app_nil_r ] | ]).
  all: intros x Hx; try discriminate Hx.
  all: norm_hyps; merge_fields.
  all: match goal with
       | H : User.deleted_flag _ _ _ _ = (Ok ?d, _) |- _ =>
           apply deleted_flag_ok in H;
           destruct (truthy d) eqn:Hd; try discriminate Hx;
           injection Hx as <-
       end.
  all: split;
    [ eexists; split; [ | left; reflexivity ];
      unfold applet_ref;
      repeat match goal with
             | H : field ?k ?v = Some _ |- context [field ?k ?v] =>
                 rewrite H
             end; reflexivity
    | eexists; split; eassumption ].
Qed.


Lemma offers_member_applet user reviewer assignment assignedUser :
  offers reviewer assignment
    (User.member_applet user reviewer assignment assignedUser).
Proof.
  unfold User.member_applet, User.userid_of.
  repeat first
    [ apply offers_ret_none
    | apply offers_raise
    | apply offers_own_applet
    | apply offers_bind; [ emit_with ltac:(exact I) | intros ]
    | match goal with
      | |- offers _ _ (if ?b then _ else _) => destruct b
      end ].
Qed.

(** What the loops add to the list of applets. *)
Lemma members_loop_appends reviewer assignment body ms :
  (forall m, offers reviewer assignment (body m)) ->
  forall applets E t,
  exists added s,
    User.members_loop body ms applets E t = (Ok (applets ++ added), t ++ s) /\
    forall a, In a added -> loaded_from reviewer assignment a s.
Proof.
  intros Hbody. induction ms as [ | m ms IH ]; intros applets E t;
    cbn [User.members_loop].
  - exists [], []. rewrite !app_nil_r. split; [ reflexivity | intros a [] ].
  - unfold bind, attempt. specialize (Hbody m E t). unfold post in Hbody.
    destruct (body m E t) as [[[x | ] | e] t1]; cbn [fst snd] in Hbody;
      destruct Hbody as (s1 & -> & Hload).
    + destruct (IH (applets ++ [x]) E (t ++ s1)) as (added & s2 & Hrun & Hin).
      exists (x :: added), (s1 ++ s2). rewrite Hrun.
      rewrite <- !app_assoc. split; [ reflexivity | ].
      intros a [<- | Ha].
      * apply loaded_from_earlier, Hload. reflexivity.
      * apply loaded_from_later, Hin, Ha.
    + destruct (IH applets E (t ++ s1)) as (added & s2 & Hrun & Hin).
      exists added, (s1 ++ s2). rewrite Hrun.
      rewrite <- !app_assoc. split; [ reflexivity | ].
      intros a Ha. apply loaded_from_later, Hin, Ha.
    + exists [], (s1 ++ [Printed (PrintClass (cls e))]).
      unfold print, ret. rewrite app_nil_r, <- app_assoc.
      split; [ reflexivity | intros a [] ].
Qed.

Lemma process_assignment_appends user reviewer assignment applets E t :
  exists added s,
    User.process_assignment user reviewer assignment applets E t
    = (Ok (applets ++ added), t ++ s) /\
    forall a, In a added -> loaded_from reviewer assignment a s.
Proof.
  unfold User.process_assignment, bind, attempt.
  assert (Hm : emits (fun _ => True) (User.assignment_members assignment)).
  { unfold User.assignment_members. emit_with ltac:(exact I). }
  destruct (Hm E t) as (s1 & Hs1 & _).
  destruct (User.assignment_members assignment E t) as [[ms | e] t1];
    cbn [snd] in Hs1; subst t1.
  - destruct (members_loop_appends reviewer assignment _ ms
                (offers_member_applet user reviewer assignment)
                applets E (t ++ s1)) as (added & s2 & Hrun & Hin).
    exists added, (s1 ++ s2). rewrite Hrun, <- app_assoc.
    split; [ reflexivity | ].
    intros a Ha. apply loaded_from_later, Hin, Ha.
  - exists [], (s1 ++ [Printed (PrintClass (cls e))]).
    unfold print, ret. rewrite app_nil_r, <- app_assoc.
    split; [ reflexivity | intros a [] ].
Qed.

(** X20.  The loop over the assignments never raises and only appends to
    the applets found so far.  Every applet that it appends is the applet
    of one of the assignments ([assignment['meta']['applet']['@id']]),
    loaded with level [READ] and the rights of the reviewer, and not marked
    as deleted. *)
Theorem assignments_loop_appends :
  forall (user reviewer : value) (assignments applets : list value)
         (E : env) (t : list event),
  exists added s,
    User.assignments_loop user reviewer assignments applets E t
    = (Ok (applets ++ added), t ++ s) /\
    forall a, In a added ->
      exists assignment,
        In assignment assignments /\
        loaded_from reviewer assignment a s.
Proof.
  intros user reviewer assignments.
  induction assignments as [ | x rest IH ]; intros applets E t;
    cbn [User.assignments_loop].
  - exists [], []. rewrite !app_nil_r. split; [ reflexivity | intros a [] ].
  - unfold bind.
    destruct (process_assignment_appends user reviewer x applets E t)
      as (added1 & s1 & Hrun1 & Hin1).
    rewrite Hrun1.
    destruct (IH (applets ++ added1) E (t ++ s1))
      as (added2 & s2 & Hrun2 & Hin2).
    rewrite Hrun2. exists (added1 ++ added2), (s1 ++ s2).
    rewrite <- !app_assoc. split; [ reflexivity | ].
    intros a Ha. apply in_app_or in Ha as [Ha | Ha].
    + exists x. split; [ left; reflexivity | ].
      apply loaded_from_earlier, Hin1, Ha.
    + destruct (Hin2 a Ha) as (assignment & Hasg & Hload).
      exists assignment. split; [ right; exact Hasg | ].
      apply loaded_from_later, Hload.
Qed.

(** *** Lines 262-282: the formatted applets *)

Lemma replies_app s1 s2 : replies (s1 ++ s2) = replies s1 ++ replies s2.
Proof.
  induction s1 as [ | [c [v | e] | p] s1 IH ]; cbn [replies app];
    rewrite ?IH; reflexivity.
Qed.

Lemma format_applets_eq reviewer applets :
  User.format_applets reviewer applets
  = try_except
      (l <- filter_mapM (format_one reviewer) applets ;;
       ret (User.Body (VList l)))
      (fun e => ret (User.BodyExc e)).
Proof. reflexivity. Qed.

Lemma formats_later reviewer a rest c :
  formats reviewer rest c -> formats reviewer (a :: rest) c.
Proof.
  intros (x & Hc & Hin & Hx). exists x. split; [ exact Hc | ].
  split; [ right; exact Hin | exact Hx ].
Qed.

Lemma ended_by_later e s1 s2 : ended_by e s2 -> ended_by e (s1 ++ s2).
Proof.
  intros [(s' & c & ->) | ->]; [ left | right; reflexivity ].
  exists (s1 ++ s'), c. apply app_assoc.
Qed.

Lemma format_one_eq reviewer a E t :
  format_one reviewer a E t
  = if is_none a then (Ok None, t) else
    match deleted_of a VNone with
    | None => (Exc attribute_error, t)
    | Some d =>
        if truthy d then (Ok None, t) else
        let c := formatLdObject a "applet" reviewer true in
        (match oracle E t c with
         | Returns v => Ok (Some v)
         | Raises e => Exc e
         end, t ++ [Called c (oracle E t c)])
    end.
Proof.
  unfold format_one. destruct (is_none a); [ reflexivity | ].
  unfold bind at 1. rewrite deleted_flag_eq.
  destruct (deleted_of a VNone) as [d | ]; [ | reflexivity ].
  destruct (truthy d); [ reflexivity | ].
  unfold bind, call, ret. cbv zeta.
  destruct (oracle E t _); reflexivity.
Qed.

Lemma format_one_cases reviewer a E t :
  (format_one reviewer a E t = (Ok None, t) /\
   (is_none a = true \/
    exists d, deleted_of a VNone = Some d /\ truthy d = true)) \/
  (format_one reviewer a E t = (Exc attribute_error, t)) \/
  (is_none a = false /\ not_deleted a VNone /\
   exists r,
     oracle E t (formatLdObject a "applet" reviewer true) = r /\
     format_one reviewer a E t
     = (match r with Returns v => Ok (Some v) | Raises e => Exc e end,
        t ++ [Called (formatLdObject a "applet" reviewer true) r])).
Proof.
  rewrite format_one_eq. destruct (is_none a) eqn:Hnone.
  - left. split; [ reflexivity | left; reflexivity ].
  - destruct (deleted_of a VNone) as [d | ] eqn:Hd.
    + destruct (truthy d) eqn:Ht.
      * left. split; [ reflexivity | right; eauto ].
      * right. right. split; [ reflexivity | ].
        split; [ exists d; split; assumption | ].
        eexists. split; reflexivity.
    + right. left. reflexivity.
Qed.

Lemma format_loop reviewer (applets : list value) :
  forall E t,
  exists s o,
    filter_mapM (format_one reviewer) applets E t = (o, t ++ s) /\
    (o = Ok (replies s) \/ exists e, o = Exc e /\ ended_by e s) /\
    forall c r, In (Called c r) s -> formats reviewer applets c.
Proof.
  induction applets as [ | a rest IH ]; intros E t.
  - exists [], (Ok []). cbn. rewrite app_nil_r.
    split; [ reflexivity | split; [ left; reflexivity | intros c r [] ] ].
  - cbn [filter_mapM]. unfold bind.
    destruct (format_one_cases reviewer a E t)
      as [[Hrun _] | [Hrun | (Hnone & Hdel & r & Hr & Hrun)]];
      rewrite Hrun.
    + destruct (IH E t) as (s & o & Hrest & Ho & HP). rewrite Hrest.
      exists s, o. split; [ destruct o; reflexivity | ].
      split; [ exact Ho | ].
      intros c r Hin. apply formats_later; eauto.
    + exists [], (Exc attribute_error). rewrite app_nil_r.
      split; [ reflexivity | ].
      split; [ right; eexists; split; [ reflexivity | right; reflexivity ] | ].
      intros c r [].
    + assert (Hcall : formats reviewer (a :: rest)
                        (formatLdObject a "applet" reviewer true)).
      { exists a. split; [ reflexivity | ].
        split; [ left; reflexivity | split; assumption ]. }
      destruct r as [v | e].
      * destruct (IH E (t ++ [Called (formatLdObject a "applet" reviewer true)
                                (Returns v)]))
          as (s & o & Hrest & Ho & HP).
        rewrite Hrest.
        exists (Called (formatLdObject a "applet" reviewer true) (Returns v)
                  :: s).
        destruct Ho as [-> | (e & -> & Hend)].
        -- exists (Ok (v :: replies s)). rewrite <- app_assoc.
           split; [ reflexivity | split; [ left; reflexivity | ] ].
           intros c r [Heq | Hin];
             [ injection Heq as <- _; exact Hcall
             | apply formats_later; eauto ].
        -- exists (Exc e). rewrite <- app_assoc.
           split; [ reflexivity | split ].
           ++ right. exists e. split; [ reflexivity | ].
              apply (ended_by_later e [_] s), Hend.
           ++ intros c r [Heq | Hin];
                [ injection Heq as <- _; exact Hcall
                | apply formats_later; eauto ].
      * exists [Called (formatLdObject a "applet" reviewer true) (Raises e)],
               (Exc e).
        split; [ reflexivity | ]. split.
        -- right. exists e. split; [ reflexivity | ].
           left. exists [], (formatLdObject a "applet" reviewer true).
           reflexivity.
        -- intros c r [Heq | []]. injection Heq as <- _. exact Hcall.
Qed.

(** X21.  The formatting of lines 262-282 never raises.  It asks the
    expander only for applets of the list that are not [None] and not
    marked as deleted, each as an ["applet"], for the reviewer and with
    [dropErrors=True].  The response is the list of what the expander
    returned, in order; or, when the expander raised or an applet's
    deleted mark could not be read, that exception itself, as the body of
    a normal response. *)
Theorem format_applets_skips_deleted :
  forall (reviewer : value) (applets : list value) (E : env)
         (t : list event),
  exists s body,
    User.format_applets reviewer applets E t = (Ok body, t ++ s) /\
    (body = User.Body (VList (replies s)) \/
     exists e, body = User.BodyExc e /\ ended_by e s) /\
    forall c r, In (Called c r) s -> formats reviewer applets c.
Proof.
  intros reviewer applets E t. rewrite format_applets_eq.
  destruct (format_loop reviewer applets E t) as (s & o & Hrun & Ho & HP).
  unfold try_except, bind. rewrite Hrun.
  destruct Ho as [-> | (e & -> & Hend)].
  - exists s, (User.Body (VList (replies s))).
    split; [ reflexivity | split; [ left; reflexivity | exact HP ] ].
  - exists s, (User.BodyExc e).
    split; [ reflexivity | split; [ right; eauto | exact HP ] ].
Qed.

(** ** The routes that only read *)

Lemma reads_as_no_write role user reviewer c :
  reads_as role user reviewer c -> no_write c = true.
Proof. destruct c; cbn [reads_as]; intros H; try contradiction; reflexivity. Qed.

Lemma route_reads (r : request) :
  plain_get r = true ->
  emits (fun c => no_write c = true) (route r).
Proof.
  destruct r; try discriminate; intros _; cbn [route]; unfold body.
  all: unfold User.find, User.getMe, User.getUser, User.getUserAccess,
         User.getUserApplets, User.getUserDetails, User.getGroupInvites,
         User.getUsersDetails, ResourceExt.mongoSearch,
         ResourceExt.getitem_v, User.format_applets, User.deleted_flag.
  all: repeat first
         [ apply emits_assignments_loop; intros;
           eapply emits_mono;
           [ apply reads_as_no_write
           | apply (member_applet_reads_as EmptyString) ]
         | apply emits_by_id
         | progress emit_with ltac:(reflexivity) ].
Qed.

(** X22.  The [GET] routes other than the two that open a session change
    nothing: whatever the collaborators answer, the handler saves, creates
    and removes nothing, sets no password, sends no mail and leaves the
    session cookie alone. *)
Theorem plain_get_writes_nothing :
  forall (r : request) (E : env),
    plain_get r = true ->
    calls_within no_write (snd (run (route r) E)).
Proof.
  intros r E Hr. destruct (route_reads r Hr E []) as (s & Hs & HP).
  unfold run. rewrite Hs. exact HP.
Qed.

Lemma plain_get_writes_nothing_witness :
  calls_within no_write
    (snd (run (route (GET_applets Demo.alice "user" false))
            (Demo.world Demo.assignments_flow))).
Proof.
  exact (plain_get_writes_nothing (GET_applets Demo.alice "user" false)
           (Demo.world Demo.assignments_flow) eq_refl).
Defined.

(** *** Lines 199-228: whose assignments count *)

Lemma userid_of_names f E t :
  post (User.userid_of f) E t
    (fun o t' => t' = t /\ forall i, o = Ok (Some i) -> names_user f i).
Proof.
  unfold User.userid_of.
  post_steps.
  all: split; [ reflexivity | ].
  all: intros i Hi; try discriminate Hi; injection Hi as <-.
  all: norm_hyps; merge_fields.
  all: unfold names_user; do 3 eexists; repeat split; eassumption.
Qed.

Lemma filter_mapM_pure {A B} (R : A -> B -> Prop) (g : A -> M (option B)) :
  (forall x E t,
      post (g x) E t
        (fun o t' => t' = t /\ forall y, o = Ok (Some y) -> R x y)) ->
  forall l E t,
    post (filter_mapM g l) E t
      (fun o t' =>
         t' = t /\
         forall ys, o = Ok ys ->
                    forall y, In y ys -> exists x, In x l /\ R x y).
Proof.
  intros Hg. induction l as [ | x l IH ]; intros E t; cbn [filter_mapM].
  - split; [ reflexivity | ]. intros ys Hys y Hy.
    injection Hys as <-. destruct Hy.
  - specialize (Hg x E t). specialize (IH E t). unfold post, bind in *.
    destruct (g x E t) as [[o | e] t1]; cbn [fst snd] in *;
      destruct Hg as [-> Hx].
    + destruct (filter_mapM g l E t) as [[ys | e] t2]; cbn [fst snd] in *;
        destruct IH as [-> Hl].
      * split; [ reflexivity | ]. intros zs Hzs y Hy. injection Hzs as <-.
        destruct o as [b | ].
        -- destruct Hy as [<- | Hy].
           ++ exists x. split; [ left; reflexivity | apply Hx; reflexivity ].
           ++ destruct (Hl ys eq_refl y Hy) as (x' & Hin & HR).
              exists x'. split; [ right; exact Hin | exact HR ].
        -- destruct (Hl ys eq_refl y Hy) as (x' & Hin & HR).
           exists x'. split; [ right; exact Hin | exact HR ].
      * split; [ reflexivity | intros zs Hzs; discriminate Hzs ].
    + split; [ reflexivity | intros zs Hzs; discriminate Hzs ].
Qed.

Lemma existsb_py_eq x l :
  existsb (py_eq x) l = true -> exists y, In y l /\ py_eq x y = true.
Proof. intros H. apply existsb_exists in H. exact H. Qed.

(** X23.  An applet of an assignment is loaded for a member only when
    the member has roles and an [@id], the folder with that id was loaded
    with [force=True] and without a level, and one of its child folders is
    a [userID] folder whose [meta.user.@id] equals the text of the [_id] of
    the user.  Whatever the member, the handler only adds to the log. *)
Theorem member_applet_gate :
  forall (user reviewer assignment assignedUser : value)
         (E : env) (t : list event),
    post (User.member_applet user reviewer assignment assignedUser) E t
      (fun o t' =>
         exists s,
           t' = t ++ s /\
           forall i level u r,
             In (Called (Applet_load i level u) r) s ->
             listed_member E user reviewer assignedUser s).
Proof.
  intros user reviewer assignment assignedUser E t.
  unfold User.member_applet.
  repeat lazymatch goal with
         | |- post (bind (filter_mapM _ _) _) _ _ _ => fail
         | |- post _ _ _ _ => post_step
         end.
  all: try solve
         [ rewrite <- ?app_assoc; eexists;
           (split; [ first [ reflexivity | symmetry; apply app_nil_r ] | ]);
           cbn [app]; intros i level u r Hin; in_log ].
  apply post_bind.
  eapply post_mono;
    [ | apply (filter_mapM_pure names_user), userid_of_names ].
  cbv beta. intros [ids | e] t' [-> Hids].
  - post_step.
    + post_step. rewrite <- ?app_assoc. eexists.
      split; [ reflexivity | ]. cbn [app]. intros i level u r Hin; in_log.
    + apply (post_emits (fun _ => True)).
      { unfold User.own_applet, User.deleted_flag. emit_with ltac:(exact I). }
      intros o s _. rewrite <- !app_assoc. eexists.
      split; [ reflexivity | ]. intros _ _ _ _ _.
      norm_hyps.
      match goal with
      | H : existsb (py_eq _) _ = true |- _ =>
          apply existsb_py_eq in H as (i & Hi & Heq)
      end.
      destruct (Hids ids eq_refl i Hi) as (f & Hf & Hnames).
      match goal with
      | H : py_iter _ _ _ = (Ok _, _) |- _ => apply py_iter_ok in H; subst
      end.
      match goal with
      | H : py_iter _ _ _ = (Ok _, _) |- _ => apply py_iter_ok in H; subst
      end.
      unfold listed_member. do 7 eexists.
      do 3 (split; [ eassumption | ]).
      split; [ intros Hnil; rewrite Hnil in *; discriminate | ].
      cbn [app].
      split; [ left; reflexivity | ].
      split; [ right; left; reflexivity | ].
      do 2 (split; [ eassumption | ]).
      exact Heq.
  - rewrite <- ?app_assoc. eexists.
    split; [ reflexivity | ]. cbn [app]. intros i level u r Hin; in_log.
Qed.

(** *** The answer with [ids_only] *)

Lemma post_outcome_bind {A B} (p : M A) (f : A -> M B)
  (Q : outcome B -> Prop) E t :
  (forall e, Q (Exc e)) ->
  (forall a E' t', post (f a) E' t' (fun o _ => Q o)) ->
  post (bind p f) E t (fun o _ => Q o).
Proof.
  intros He Hf. unfold post, bind.
  destruct (p E t) as [[a | e] t1]; [ apply Hf | apply He ].
Qed.

Lemma mapM_ids (l : list value) E t :
  (forall x, In x l -> is_dict x = true) ->
  mapM (fun applet => py_get applet "_id" VNone) l E t
  = (Ok (map id_of l), t).
Proof.
  induction l as [ | x l IH ]; intros Hl; cbn [mapM map].
  - reflexivity.
  - unfold bind. destruct x; try (discriminate (Hl _ (or_introl eq_refl))).
    cbn [py_get]. unfold ret at 1. rewrite IH; [ reflexivity | ].
    intros; apply Hl; right; assumption.
Qed.

Lemma distinct_ids_pairwise (l : list value) :
  distinct_ids l -> pairwise_unequal (map id_of l).
Proof.
  induction l as [ | x l IH ]; cbn [distinct_ids pairwise_unequal map].
  - intros _. exact I.
  - intros [Hx Hl]. split; [ | apply IH, Hl ].
    intros y Hy. apply in_map_iff in Hy as (z & <- & Hz). apply Hx, Hz.
Qed.

(** X24.  Asked for the ids only, [getUserApplets] answers, when it
    answers, with a list in which no two ids are equal: the ids of the
    applets that lines 252-259 kept. *)
Theorem getUserApplets_ids_distinct :
  forall (E : env) (user : value) (role : string),
    post (User.getUserApplets user role true) E []
      (fun o _ =>
         forall body, o = Ok body ->
           exists ids, body = User.Body (VList ids) /\ pairwise_unequal ids).
Proof.
  intros E user role. unfold User.getUserApplets.
  repeat lazymatch goal with
         | |- post (bind (User.by_id _ _) _) _ _ _ => fail
         | |- post (bind _ _) _ _ _ =>
             apply post_outcome_bind;
             [ intros e body H; discriminate H | intros ]
         | |- post (if ?b then _ else _) _ _ _ => destruct b
         | |- post (raise _) _ _ _ =>
             apply post_raise; intros body H; discriminate H
         end.
  unfold post, bind. rewrite by_id_index_by.
  match goal with
  | |- context [index_by ?l []] => destruct (index_by l []) as [d | ] eqn:Hd
  end.
  - pose proof (index_by_keyed _ _ _ keyed_by_id_nil Hd) as Hkeyed.
    rewrite mapM_ids.
    + cbn [fst ret]. intros body H. injection H as <-.
      eexists. split; [ reflexivity | ].
      apply distinct_ids_pairwise, distinct_ids_values, Hkeyed.
    + intros x Hx. apply in_map_iff in Hx as ([k v] & <- & Hin).
      apply (proj2 Hkeyed _ _ Hin).
  - cbn [fst]. intros body H. discriminate H.
Qed.

(** ** Demonstration runs *)

(** A login with the credentials in the [Girder-Authorization] header:
    the password is what follows the first colon. *)
Example login_demo :
  run User.login (Demo.world More.basic_login)
  = (Ok (VDict [("user", Demo.alice);
                ("authToken",
                 VDict [("token", VStr "tok-2"); ("expires", VTime 9000);
                        ("scope", VList [VStr "auth"])]);
                ("message", VStr "Login succeeded.")]),
     [Called (Setting_get ENABLE_PASSWORD_LOGIN) (Returns (VBool true));
      Called getCurrentUser_returnToken (Returns (VList [VNone; VNone]));
      Called (request_header "Authorization") (Returns VNone);
      Called (request_header "Girder-Authorization")
        (Returns (VStr "Basic YWxpY2U6czNjOnJldA=="));
      Called (b64decode_utf8 "YWxpY2U6czNjOnJldA==")
        (Returns (VStr "alice:s3c:ret"));
      Called (request_header "Girder-OTP") (Returns VNone);
      Called (User_authenticate "alice" "s3c:ret" VNone)
        (Returns Demo.alice);
      Called (setCurrentUser Demo.alice) (Returns VNone);
      Called (sendAuthTokenCookie Demo.alice) (Returns Demo.auth_token);
      Called (User_filter Demo.alice Demo.alice) (Returns Demo.alice)]).
Proof. reflexivity. Qed.

(** Of two applets with the same [_id] the later one stays, in the place
    of the first; what is not a dictionary is dropped. *)
Example by_id_demo :
  run (User.by_id [More.applet_old; VNone; Demo.applet_b; More.applet_new]
         [])
      (Demo.world More.nobody)
  = (Ok [More.applet_new; Demo.applet_b], []).
Proof. reflexivity. Qed.

(** An applet marked as deleted is not handed to the expander. *)
Example format_applets_demo :
  run (User.format_applets Demo.bob [Demo.applet_b; More.applet_gone])
      (Demo.world More.expander)
  = (Ok (User.Body (VList [VDict [("applet", Demo.applet_b)]])),
     [Called (formatLdObject Demo.applet_b "applet" Demo.bob true)
        (Returns (VDict [("applet", Demo.applet_b)]))]).
Proof. reflexivity. Qed.
